(** * abctl: runtime connector, uninstall sequence, provider profiles, log scanner

    A shallow embedding of
    - [internal/docker/docker.go]   ([newWithOptions], [createAndPing]),
    - [internal/cmd/local/uninstall.go] ([UninstallCmd.Run]),
    - [internal/k8s/provider_test.go]   ([dirExists] and the profile tests),
    - [internal/airbyte/log_scanner_test.go] ([TestJavaLogScanner]).

    Go code talks to the outside world (the docker CLI, the docker daemon,
    kind, the file system, the terminal).  Every such call is threaded
    through an explicit world value and leaves an [Event] in the trace of
    the run, so that "what was attempted, and in which order" is a
    statement about a list. *)

From Stdlib Require Import String Ascii List Bool Arith Lia.
From stdpp Require Import base option gmap strings.
Import ListNotations.

Set Default Proof Using "Type".

(** ** Go errors *)

(** [errors.New]/[fmt.Errorf] without [%w] give a leaf; [fmt.Errorf] with
    one [%w] gives a node that remembers the error it wraps.  The text is
    computed when the error is built, as [fmt] does. *)
Inductive error : Type :=
| errorString (s : string)
| wrapError (msg : string) (err : error).

(** [err.Error()] *)
Definition Error (e : error) : string :=
  match e with
  | errorString s => s
  | wrapError msg _ => msg
  end.

(** [errors.Unwrap] *)
Definition Unwrap (e : error) : option error :=
  match e with
  | errorString _ => None
  | wrapError _ err => Some err
  end.

#[global] Instance error_eq_dec : EqDecision error.
Proof. solve_decision. Defined.

(** [err == target] *)
Fixpoint error_eqb (a b : error) : bool :=
  match a, b with
  | errorString s, errorString s' => String.eqb s s'
  | wrapError m e, wrapError m' e' => String.eqb m m' && error_eqb e e'
  | _, _ => false
  end.

(** [errors.Is]: walk the [Unwrap] chain looking for [target].  Go compares
    interface values (pointer identity for the pointer types behind
    [error]); structural equality is the coarsest relation containing it. *)
Fixpoint Is (err target : error) : bool :=
  if error_eqb err target then true
  else match err with
       | errorString _ => false
       | wrapError _ inner => Is inner target
       end.

(** [fmt.Errorf(pre ++ "%w" ++ post, err)] *)
Definition Errorf_w (pre : string) (err : error) (post : string) : error :=
  wrapError (pre +:+ Error err +:+ post) err.

(** [fmt.Errorf(pre ++ "%s", s)]: no [%w], nothing is wrapped. *)
Definition Errorf_s (pre s : string) : error :=
  errorString (pre +:+ s).

(** A Go [(T, error)] result. *)
Inductive result (A : Type) : Type :=
| Ok (a : A)
| Err (e : error).
Arguments Ok {A} a.
Arguments Err {A} e.

(** ** Observable events *)

(** The [pterm] printers used by the code. *)
Inductive Level := Debug | Info | Success | Warning | ErrorLvl.

#[global] Instance Level_eq_dec : EqDecision Level.
Proof. solve_decision. Defined.

(** [client.Opt] values the connector passes to the client constructor. *)
Inductive Opt :=
| WithHost (host : string)
| FromEnv
| WithAPIVersionNegotiation
| WithTraceProvider_NeverSample.

#[global] Instance Opt_eq_dec : EqDecision Opt.
Proof. solve_decision. Defined.

Inductive Event :=
(* terminal *)
| Pterm (lvl : Level) (msg : string)
| SpinnerStart (text : string)
| SpinnerUpdateText (text : string)
| SpinnerSuccess (text : string)
(* tracing and telemetry *)
| SpanNew (name : string)
| SpanSetBool (key : string) (v : bool)
| SpanEnd
| TelStart (eventType : string)
| TelEnd (eventType : string) (failure : option error)
(* docker *)
| ExecDockerContextInspect
| CallNewPing (opts : list Opt)
| CallPing
| CallDockerInstalled (failure : option error)
(* cluster and deployment manager *)
| CallCluster (failure : option error)
| CallExists (answer : bool)
| CallNewManager (failure : option error)
| CallUninstall (persisted : bool) (failure : option error)
| CallDelete (failure : option error).

#[global] Instance Event_eq_dec : EqDecision Event.
Proof. solve_decision. Defined.

(** ** The effect monad: a world, threaded, and a trace, appended *)

Section Effects.
Context {W : Type}.

Definition M (A : Type) : Type := W -> A * W * list Event.

Definition ret {A} (a : A) : M A := fun w => (a, w, []).

Definition bind {A B} (m : M A) (k : A -> M B) : M B :=
  fun w =>
    let '(a, w1, t1) := m w in
    let '(b, w2, t2) := k a w1 in
    (b, w2, t1 ++ t2).

(** Record an event. *)
Definition emit (e : Event) : M unit := fun w => (tt, w, [e]).

(** Call into the world and record the call, the event depending on
    what came back. *)
Definition call {A} (f : W -> A * W) (ev : A -> Event) : M A :=
  fun w => let '(a, w1) := f w in (a, w1, [ev a]).
End Effects.
Arguments M W A : clear implicits.

Declare Scope go_scope.
Delimit Scope go_scope with go.
Notation "x <- c ;; k" := (bind c (fun x => k))
  (at level 100, c at next level, right associativity) : go_scope.
Notation "c ;;; k" := (bind c (fun _ => k))
  (at level 100, right associativity) : go_scope.

Definition value {W A} (r : A * W * list Event) : A := fst (fst r).
Definition final {W A} (r : A * W * list Event) : W := snd (fst r).
Definition trace {W A} (r : A * W * list Event) : list Event := snd r.

Definition failureOf {A} (r : result A) : option error :=
  match r with Ok _ => None | Err e => Some e end.

(** Trace projections used to state what a run did. *)

(** The hosts the client constructor was asked to dial, in order. *)
Fixpoint dialed (t : list Event) : list string :=
  match t with
  | [] => []
  | CallNewPing (WithHost h :: _) :: t' => h :: dialed t'
  | _ :: t' => dialed t'
  end.

(** What was printed at level [lvl], in order. *)
Fixpoint printed (lvl : Level) (t : list Event) : list string :=
  match t with
  | [] => []
  | Pterm l msg :: t' =>
      if decide (l = lvl) then msg :: printed lvl t' else printed lvl t'
  | _ :: t' => printed lvl t'
  end.

(** * internal/docker/docker.go *)

Module docker.

(** [type Version struct { Version, Arch, Platform string }] *)
Record Version := { Version_ : string; Arch : string; Platform : string }.

(** One element of the slice the output of [docker context inspect] is
    decoded into: [struct{ Endpoints struct{ Docker struct{ Host string } } }]. *)
Record contextData := { Endpoints_Docker_Host : string }.

(** What the connector takes from its surroundings: the client type behind
    the [pinger] interface with its [Ping] method, the package-level values
    [abctl.ErrDocker] and [paths.UserHome] (declared in other packages),
    the [docker context inspect] subprocess and [json.Unmarshal] at the
    type of [data]. *)
Class Runtime (W : Type) := {
  pinger : Type;
  Ping : pinger -> W -> option error * W;
  ErrDocker : error;
  UserHome : string;
  dockerContextInspect : W -> result string * W;
  unmarshalContexts : string -> result (list contextData);
}.

(** [type newPing func(...client.Opt) (pinger, error)] *)
Definition newPingT (W : Type) `{Runtime W} : Type :=
  list Opt -> W -> result pinger * W.

(** [type Docker struct { Client Client }] *)
Record Docker {W : Type} `{Runtime W} := { Client : pinger }.

(** [dockerOpts] *)
Definition dockerOpts : list Opt :=
  [FromEnv; WithAPIVersionNegotiation; WithTraceProvider_NeverSample].

Section Connector.
Context {W : Type} `{Runtime W}.

(** The [switch goos] of [newWithOptions]. *)
Definition fallbackHosts (goos : string) : list string :=
  if String.eqb goos "darwin" then
    ["unix:///var/run/docker.sock";
     "unix://" +:+ UserHome +:+ "/.docker/run/docker.sock"]
  else if String.eqb goos "windows" then
    ["npipe:////./pipe/docker_engine"]
  else
    ["unix:///var/run/docker.sock";
     "unix://" +:+ UserHome +:+ "/.docker/desktop/docker-cli.sock"].

(** Lines 97-132 of [newWithOptions]: the candidate list. *)
Definition potentialHosts (goos : string) : M W (list string) :=
  (let potentialHosts := [] in
   r <- call dockerContextInspect (fun _ => ExecDockerContextInspect);;
   let potentialHosts :=
     match r with
     | Ok out =>
         match unmarshalContexts out with
         | Ok data =>
             match data with
             | d :: _ =>
                 if negb (String.eqb (Endpoints_Docker_Host d) "")
                 then potentialHosts ++ [Endpoints_Docker_Host d]
                 else potentialHosts
             | [] => potentialHosts
             end
         | Err _ => potentialHosts
         end
     | Err _ => potentialHosts
     end in
   ret (potentialHosts ++ fallbackHosts goos))%go.

(** [createAndPing] *)
Definition createAndPing (newPing : newPingT W) (host : string)
    (opts : list Opt) : M W (result pinger) :=
  (r <- call (newPing (WithHost host :: opts))
             (fun _ => CallNewPing (WithHost host :: opts));;
   match r with
   | Err err => ret (Err (Errorf_w "unable to create docker client: " err ""))
   | Ok cli =>
       p <- call (Ping cli) (fun _ => CallPing);;
       match p with
       | Some err =>
           ret (Err (Errorf_w "unable to ping docker client: " err ""))
       | None => ret (Ok cli)
       end
   end)%go.

(** The text of the [pterm.Debug.Printfln] in the loop. *)
Definition connectDebugMsg (host : string) (err : error) : string :=
  "error connecting to docker host " +:+ host +:+ ": " +:+ Error err.

(** The error of line 151. *)
Definition errUnableToCreate : error :=
  Errorf_w "" ErrDocker ": unable to create docker client".

(** Lines 142-151: the [for _, host := range potentialHosts] loop and the
    [return] it falls through to. *)
Fixpoint connectLoop (newPing : newPingT W) (hosts : list string)
  : M W (result Docker) :=
  match hosts with
  | [] => ret (Err errUnableToCreate)
  | host :: rest =>
      (r <- createAndPing newPing host dockerOpts;;
       match r with
       | Err err =>
           emit (Pterm Debug (connectDebugMsg host err));;;
           connectLoop newPing rest
       | Ok dockerCli => ret (Ok {| Client := dockerCli |})
       end)%go
  end.

(** [newWithOptions] *)
Definition newWithOptions (newPing : newPingT W) (goos : string)
  : M W (result Docker) :=
  (hosts <- potentialHosts goos;;
   connectLoop newPing hosts)%go.

(** *** Vocabulary for the statements *)

(** The candidates [hosts], tried in order starting from world [w], all
    fail: the errors [createAndPing] reported and the world left behind. *)
Fixpoint failures (newPing : newPingT W) (hosts : list string) (w : W)
  : option (list error * W) :=
  match hosts with
  | [] => Some ([], w)
  | h :: rest =>
      match createAndPing newPing h dockerOpts w with
      | (Err e, w1, _) =>
          match failures newPing rest w1 with
          | Some (es, w2) => Some (e :: es, w2)
          | None => None
          end
      | (Ok _, _, _) => None
      end
  end.

(** The endpoint of the current context, when the introspection command
    succeeds and yields a usable address. *)
Definition currentContextEndpoint (w : W) : option string :=
  match fst (dockerContextInspect w) with
  | Ok out =>
      match unmarshalContexts out with
      | Ok (d :: _) =>
          if String.eqb (Endpoints_Docker_Host d) "" then None
          else Some (Endpoints_Docker_Host d)
      | _ => None
      end
  | Err _ => None
  end.

(** The debug lines the loop prints for candidates [hosts] failing with
    [errs]. *)
Fixpoint debugLines (hosts : list string) (errs : list error) : list string :=
  match hosts, errs with
  | h :: hosts', e :: errs' => connectDebugMsg h e :: debugLines hosts' errs'
  | _, _ => []
  end.

End Connector.
End docker.

(** * internal/k8s: the provider record *)

Module k8s.

(** The two provider names the tests compare against, [Kind] and [Test]. *)
Inductive ProviderName := Kind | Test.

(** [k8s.Provider], with the four fields the tests and [UninstallCmd.Run]
    read. *)
Record Provider := {
  Name : ProviderName;
  ClusterName : string;
  Context : string;
  Kubeconfig : string;
}.

(** *** path/filepath, on Unix paths *)

Definition isSeparator (c : ascii) : bool := Ascii.eqb c "/".

Fixpoint hasSeparator (s : string) : bool :=
  match s with
  | String c rest => isSeparator c || hasSeparator rest
  | EmptyString => false
  end.

(** Strip trailing slashes. *)
Fixpoint trimSeparators (s : string) : string :=
  match s with
  | String c rest =>
      match trimSeparators rest with
      | EmptyString => if isSeparator c then "" else String c ""
      | r => String c r
      end
  | EmptyString => ""
  end.

(** What comes after the last separator. *)
Fixpoint lastElement (s : string) : string :=
  match s with
  | String c rest =>
      if hasSeparator rest then lastElement rest
      else if isSeparator c then rest else s
  | EmptyString => ""
  end.

(** [filepath.Base] *)
Definition Base (path : string) : string :=
  if String.eqb path "" then "."
  else
    let path := trimSeparators path in
    let path := lastElement path in
    if String.eqb path "" then "/" else path.

(** What comes before the last separator, the separator included. *)
Fixpoint throughLastSeparator (s : string) : string :=
  match s with
  | String c rest =>
      if hasSeparator rest then String c (throughLastSeparator rest)
      else if isSeparator c then "/" else ""
  | EmptyString => ""
  end.

(** [strings.Split(path, "/")]: the elements between the separators,
    empty ones included. *)
Fixpoint elements (s : string) : list string :=
  match s with
  | String c rest =>
      if isSeparator c then "" :: elements rest
      else
        match elements rest with
        | e :: es => String c e :: es
        | [] => [String c ""]
        end
  | EmptyString => [""]
  end.

(** [strings.Join(elems, "/")] *)
Fixpoint joinSep (elems : list string) : string :=
  match elems with
  | [] => ""
  | e :: rest =>
      match rest with
      | [] => e
      | _ :: _ => e +:+ "/" +:+ joinSep rest
      end
  end.

(** One element of the path met by [filepath.Clean].  The output so far
    is [dotdot] elements [..], which cannot be taken back, and then the
    names of [stack], last first.  An empty element (a doubled separator)
    and [.] are dropped; [..] takes back the last name, or is dropped at
    the root, or is kept at the head of a relative path; a name is kept. *)
Definition cleanStep (rooted : bool) (st : nat * list string) (e : string)
  : nat * list string :=
  let '(dotdot, stack) := st in
  if String.eqb e "" || String.eqb e "." then st
  else if String.eqb e ".." then
    match stack with
    | _ :: stack' => (dotdot, stack')
    | [] => if rooted then st else (S dotdot, [])
    end
  else (dotdot, e :: stack).

(** Whether the path starts at the root, and the elements [filepath.Clean]
    keeps of it. *)
Definition cleanElements (path : string) : bool * list string :=
  let rooted :=
    match path with
    | String c _ => isSeparator c
    | EmptyString => false
    end in
  let '(dotdot, stack) :=
    fold_left (cleanStep rooted) (elements path) (0, []) in
  (rooted, repeat ".." dotdot ++ rev stack).

(** [filepath.Clean], on Unix paths: the shortest path equivalent to
    [path] by lexical processing; the empty path and a relative path
    with nothing left are the dot. *)
Definition Clean (path : string) : string :=
  if String.eqb path "" then "."
  else
    let '(rooted, out) := cleanElements path in
    if rooted then "/" +:+ joinSep out
    else
      match out with
      | [] => "."
      | _ :: _ => joinSep out
      end.

(** [filepath.Dir]: all but the last element of the path, cleaned. *)
Definition Dir (path : string) : string :=
  Clean (throughLastSeparator path).

(** [filepath.Join]: the elements from the first one that is not empty
    on, joined with separators and cleaned. *)
Fixpoint Join (elem : list string) : string :=
  match elem with
  | [] => ""
  | e :: rest =>
      if String.eqb e "" then Join rest else Clean (joinSep (e :: rest))
  end.

(** Each element followed by a separator. *)
Fixpoint slashed (elems : list string) : string :=
  match elems with
  | [] => ""
  | e :: rest => e +:+ "/" +:+ slashed rest
  end.

(** What a path puts in front of a file name joined to it: the slash of
    the root, if the path starts there, and the elements [filepath.Clean]
    keeps of it, each with its separator. *)
Definition cleanPrefix (path : string) : string :=
  let '(rooted, out) := cleanElements path in
  (if rooted then "/" else "") +:+ slashed out.

(** An element [filepath.Clean] keeps: not empty, not the dot, no
    separator in it. *)
Definition kept (e : string) : Prop :=
  e <> "" /\ e <> "." /\ hasSeparator e = false.

(** A file name: not empty, no separator in it, and neither of the dot
    elements. *)
Definition isFileName (s : string) : bool :=
  negb (String.eqb s "") && negb (hasSeparator s)
  && negb (String.eqb s ".") && negb (String.eqb s "..").

(** *** The two profiles *)

(** Modelled from the spec: package [paths] and the values
    [k8s.DefaultProvider] and [k8s.TestProvider] are declared outside the
    given sources.  "File name is fixed and identical across profiles; only
    the containing directory differs": [FileKubeconfig] is that file name,
    [userDir] the directory of the well-known user path and [testDir] the
    per-run temporary directory of the test profile. *)
Class Layout := {
  FileKubeconfig : string;
  userDir : string;
  testDir : string;
}.

Section Profiles.
Context `{Layout}.

(** Modelled from the spec: [paths.Kubeconfig], the well-known user path. *)
Definition paths_Kubeconfig : string := Join [userDir; FileKubeconfig].

(** Modelled from the spec: the default profile, "fixed cluster/context
    names, kubeconfig at a well-known user path", with the names
    [TestProvider_Defaults] expects. *)
Definition DefaultProvider : Provider :=
  {| Name := Kind;
     ClusterName := "airbyte-abctl";
     Context := "kind-airbyte-abctl";
     Kubeconfig := paths_Kubeconfig |}.

(** Modelled from the spec: the test profile, "cluster/context names
    prefixed distinctly, kubeconfig under an ephemeral, per-run temporary
    directory". *)
Definition TestProvider : Provider :=
  {| Name := Test;
     ClusterName := "test-airbyte-abctl";
     Context := "test-airbyte-abctl";
     Kubeconfig := Join [testDir; FileKubeconfig] |}.

End Profiles.

(** *** The file system and [Provider.Cluster] *)

Inductive node := Directory | RegularFile.

(** [os.ErrNotExist] *)
Definition ErrNotExist : error := errorString "file does not exist".

(** The world of [Provider.Cluster]: what is on disk, whether the disk can
    be written, which clusters the runtime has and whether it can make
    new ones. *)
Record world := {
  disk : gmap string node;
  readOnly : bool;
  clusters : gset string;
  runtimeUp : bool;
}.

(** [syscall.ENOENT]: its text, and [os.ErrNotExist] as what it is to
    [errors.Is]. *)
Definition ENOENT : error :=
  wrapError "no such file or directory" ErrNotExist.

(** [os.Stat], on a disk that maps the names of the paths that exist to
    what is there: the name is looked up as it is given, and a name that
    is not there is the path error of the [stat] call around [ENOENT]. *)
Definition Stat (w : world) (name : string) : result node :=
  match disk w !! name with
  | Some n => Ok n
  | None => Err (Errorf_w ("stat " +:+ name +:+ ": ") ENOENT "")
  end.

(** [dirExists] of provider_test.go *)
Definition dirExists (w : world) (dir : string) : bool :=
  match Stat w dir with
  | Err err => if Is err ErrNotExist then false else false
  | Ok _ => true
  end.

(** The proper ancestors of a path, nearest last: every nonempty prefix
    that is followed by a separator. *)
Fixpoint ancestorsFrom (pre s : string) : list string :=
  match s with
  | String c rest =>
      (if isSeparator c && negb (String.eqb pre "") then [pre] else [])
      ++ ancestorsFrom (pre +:+ String c "") rest
  | EmptyString => []
  end.

Fixpoint mkdirs (paths : list string) (w : world) : result world :=
  match paths with
  | [] => Ok w
  | p :: rest =>
      match disk w !! p with
      | Some Directory => mkdirs rest w
      | Some RegularFile =>
          Err (errorString ("mkdir " +:+ p +:+ ": not a directory"))
      | None =>
          if readOnly w then
            Err (errorString ("mkdir " +:+ p +:+ ": permission denied"))
          else
            mkdirs rest
              {| disk := <[p := Directory]> (disk w);
                 readOnly := readOnly w;
                 clusters := clusters w;
                 runtimeUp := runtimeUp w |}
      end
  end.

(** [os.MkdirAll]: the directory and every missing parent. *)
Definition MkdirAll (path : string) (w : world) : result world :=
  mkdirs (ancestorsFrom "" path ++ [path]) w.

(** The handle [Provider.Cluster] returns. *)
Record ClusterHandle := {
  handle_ClusterName : string;
  handle_Kubeconfig : string;
}.

(** Modelled from the spec: [Provider.Cluster] is declared outside the given
    sources.  "Creates the named cluster if absent, or attaches to it if
    present; guarantees that after a successful return, the kubeconfig
    directory exists on disk", and it "ensures the kubeconfig directory
    exists on disk even if the cluster itself is newly created".  The
    result is the Go pair of a handle, nil on failure, and an error, nil
    on success. *)
Definition Cluster (p : Provider) (w : world)
  : (option ClusterHandle * option error) * world :=
  match MkdirAll (Dir (Kubeconfig p)) w with
  | Err err =>
      ((None,
        Some (Errorf_w ("unable to create directory " +:+ Kubeconfig p
                        +:+ ": ") err "")), w)
  | Ok w1 =>
      let handle :=
        {| handle_ClusterName := ClusterName p;
           handle_Kubeconfig := Kubeconfig p |} in
      if decide (ClusterName p ∈ clusters w1) then
        ((Some handle, None), w1)
      else if runtimeUp w1 then
        ((Some handle, None),
         {| disk := disk w1;
            readOnly := readOnly w1;
            clusters := {[ClusterName p]} ∪ clusters w1;
            runtimeUp := runtimeUp w1 |})
      else
        ((None,
          Some (errorString ("unable to create cluster "
                             +:+ ClusterName p))), w1)
  end.

End k8s.

(** * internal/telemetry and internal/trace, as [UninstallCmd.Run] uses them *)

Module telemetry.

(** Modelled from the spec: the event type [telemetry.Uninstall] is declared
    outside the given sources; the spec calls the operation "uninstall". *)
Definition Uninstall : string := "uninstall".

(** Modelled from the spec: [telemetry.Client.Wrap] is declared outside the
    given sources.  "Wrap(ctx, operationName, func() error) -> error,
    running the given operation inside a named, auto-closing measurement
    scope": the scope opens, the operation runs once, the scope closes with
    the operation's outcome, and that outcome is what [Wrap] returns. *)
Definition Wrap {W : Type} (et : string) (f : M W (option error))
  : M W (option error) :=
  (emit (TelStart et);;;
   r <- f;;
   emit (TelEnd et r);;;
   ret r)%go.

End telemetry.

(** * internal/cmd/local/uninstall.go *)

Module local.

(** [type UninstallCmd struct { Persisted bool }] *)
Record UninstallCmd := { Persisted : bool }.

(** [service.UninstallOpts] *)
Record UninstallOpts := { opts_Persisted : bool }.

(** The calls [Run] makes into other packages: [dockerInstalled] of this
    package, [Provider.Cluster], the [Exists] and [Delete] methods of the
    cluster handle, [service.NewManager] and the manager's [Uninstall]. *)
Class Collaborators (W : Type) := {
  Cluster : Type;
  Manager : Type;
  dockerInstalled : W -> result docker.Version * W;
  provider_Cluster : k8s.Provider -> W -> result Cluster * W;
  cluster_Exists : Cluster -> W -> bool * W;
  cluster_Delete : Cluster -> W -> option error * W;
  service_NewManager : k8s.Provider -> W -> result Manager * W;
  svcMgr_Uninstall : Manager -> UninstallOpts -> W -> option error * W;
}.

Definition nl : string := String (ascii_of_nat 10) "".

Section Uninstall.
Context {W : Type} `{Collaborators W}.

(** Lines 250-286: the function handed to [telClient.Wrap]. *)
Definition uninstall (u : UninstallCmd) (provider : k8s.Provider)
  : M W (option error) :=
  (emit (SpinnerUpdateText
           ("Checking for existing Kubernetes cluster '"
            +:+ k8s.ClusterName provider +:+ "'"));;;
   c <- call (provider_Cluster provider)
             (fun r => CallCluster (failureOf r));;
   match c with
   | Err err =>
       emit (Pterm ErrorLvl
               ("Unable to determine if the cluster '"
                +:+ k8s.ClusterName provider +:+ "' exists"));;;
       ret (Some err)
   | Ok cluster =>
       ex <- call (cluster_Exists cluster) CallExists;;
       (* if no cluster exists, there is nothing to do *)
       if negb ex then
         emit (Pterm Success
                 ("Cluster '" +:+ k8s.ClusterName provider
                  +:+ "' does not exist" +:+ nl
                  +:+ "No additional action required"));;;
         ret None
       else
         emit (Pterm Success
                 ("Existing cluster '" +:+ k8s.ClusterName provider
                  +:+ "' found"));;;
         m <- call (service_NewManager provider)
                   (fun r => CallNewManager (failureOf r));;
         match m with
         | Err err =>
             emit (Pterm Warning
                     ("Failed to initialize 'local' command" +:+ nl
                      +:+ "Uninstallation attempt will continue"));;;
             emit (Pterm Debug
                     ("Initialization of 'local' failed with "
                      +:+ Error err))
         | Ok svcMgr =>
             r <- call (svcMgr_Uninstall svcMgr
                          {| opts_Persisted := Persisted u |})
                       (CallUninstall (Persisted u));;
             match r with
             | Some err =>
                 emit (Pterm Warning
                         ("unable to complete uninstall: " +:+ Error err));;;
                 emit (Pterm Warning
                         "will still attempt to uninstall the cluster")
             | None => ret tt
             end
         end;;;
         emit (SpinnerUpdateText
                 ("Verifying uninstallation status of cluster '"
                  +:+ k8s.ClusterName provider +:+ "'"));;;
         d <- call (cluster_Delete cluster) CallDelete;;
         match d with
         | Some _ =>
             emit (Pterm ErrorLvl
                     ("Uninstallation of cluster '"
                      +:+ k8s.ClusterName provider +:+ "' failed"));;;
             ret (Some (Errorf_s "unable to uninstall cluster "
                          (k8s.ClusterName provider)))
         | None =>
             emit (Pterm Success
                     ("Uninstallation of cluster '"
                      +:+ k8s.ClusterName provider
                      +:+ "' completed successfully"));;;
             emit (SpinnerSuccess "Airbyte uninstallation complete");;;
             ret None
         end
   end)%go.

(** [func (u *UninstallCmd) Run(ctx, provider, telClient) error].  The
    deferred [span.End()] runs when the function returns, on every path. *)
Definition Run (u : UninstallCmd) (provider : k8s.Provider)
  : M W (option error) :=
  (emit (SpanNew "local uninstall");;;
   r <- (emit (SpanSetBool "persisted" (Persisted u));;;
         emit (SpinnerStart "Starting uninstallation");;;
         emit (SpinnerUpdateText "Checking for Docker installation");;;
         d <- call dockerInstalled (fun r => CallDockerInstalled (failureOf r));;
         match d with
         | Err err =>
             emit (Pterm ErrorLvl "Unable to determine if Docker is installed");;;
             ret (Some (Errorf_w
                          "unable to determine docker installation status: "
                          err ""))
         | Ok _ => telemetry.Wrap telemetry.Uninstall (uninstall u provider)
         end);;
   emit SpanEnd;;;
   ret r)%go.

End Uninstall.
End local.

(** ** Vocabulary for statements about traces *)

Definition isSpanNew (e : Event) : bool :=
  match e with SpanNew _ => true | _ => false end.
Definition isPersistedAttr (e : Event) : bool :=
  match e with SpanSetBool "persisted" _ => true | _ => false end.
Definition isTelStart (e : Event) : bool :=
  match e with TelStart _ => true | _ => false end.
Definition isDockerInstalled (e : Event) : bool :=
  match e with CallDockerInstalled _ => true | _ => false end.
Definition isCluster (e : Event) : bool :=
  match e with CallCluster _ => true | _ => false end.
Definition isExists (e : Event) : bool :=
  match e with CallExists _ => true | _ => false end.
Definition isExistsAnswer (b : bool) (e : Event) : bool :=
  match e with CallExists b' => Bool.eqb b b' | _ => false end.
Definition isNewManager (e : Event) : bool :=
  match e with CallNewManager _ => true | _ => false end.
Definition isNewManagerFailure (e : Event) : bool :=
  match e with CallNewManager (Some _) => true | _ => false end.
Definition isUninstall (e : Event) : bool :=
  match e with CallUninstall _ _ => true | _ => false end.
Definition isUninstallFailure (e : Event) : bool :=
  match e with CallUninstall _ (Some _) => true | _ => false end.
Definition isDelete (e : Event) : bool :=
  match e with CallDelete _ => true | _ => false end.
Definition isDeleteFailure (e : Event) : bool :=
  match e with CallDelete (Some _) => true | _ => false end.
Definition isPterm (lvl : Level) (e : Event) : bool :=
  match e with Pterm l _ => bool_decide (l = lvl) | _ => false end.

(** Some event satisfying [p] occurs, and some event satisfying [q] occurs
    later in the trace. *)
Fixpoint precedes (p q : Event -> bool) (t : list Event) : bool :=
  match t with
  | [] => false
  | e :: t' => (p e && existsb q t') || precedes p q t'
  end.

(** * encoding/json, as far as the log scanner needs it *)

(** A reader of JSON texts (RFC 8259) into a syntax tree.  Strings are byte
    strings; a [\u] escape is written out in UTF-8, surrogate pairs
    combined and lone surrogates replaced by U+FFFD, as Go's decoder does. *)
Module json.

#[warnings="-register-all"]
Inductive value :=
| Null
| Bool (b : bool)
| Number (literal : string)
| Str (s : string)
| Array (elems : list value)
| Object (members : list (string * value)).

(** The code of a byte. *)
Definition code (c : ascii) : N := N_of_ascii c.
Definition byte (n : N) : string := String (ascii_of_N n) "".

Definition isSpace (c : ascii) : bool :=
  match code c with
  | 32 | 9 | 10 | 13 => true
  | _ => false
  end%N.

Fixpoint skipSpace (s : string) : string :=
  match s with
  | String c rest => if isSpace c then skipSpace rest else s
  | EmptyString => s
  end.

Definition isDigit (c : ascii) : bool :=
  ((48 <=? code c) && (code c <=? 57))%N.

Definition hexVal (c : ascii) : option N :=
  let n := code c in
  (if (48 <=? n) && (n <=? 57) then Some (n - 48)
   else if (97 <=? n) && (n <=? 102) then Some (n - 87)
   else if (65 <=? n) && (n <=? 70) then Some (n - 55)
   else None)%N.

(** Four hexadecimal digits. *)
Definition hex4 (s : string) : option (N * string) :=
  match s with
  | String a (String b (String c (String d rest))) =>
      match hexVal a, hexVal b, hexVal c, hexVal d with
      | Some a, Some b, Some c, Some d =>
          Some ((((a * 16 + b) * 16 + c) * 16 + d)%N, rest)
      | _, _, _, _ => None
      end
  | _ => None
  end.

(** The UTF-8 encoding of a code point below 0x110000. *)
Definition utf8 (cp : N) : string :=
  (if cp <? 128 then byte cp
   else if cp <? 2048 then
     byte (192 + cp / 64) +:+ byte (128 + cp mod 64)
   else if cp <? 65536 then
     byte (224 + cp / 4096) +:+ byte (128 + (cp / 64) mod 64)
     +:+ byte (128 + cp mod 64)
   else
     byte (240 + cp / 262144) +:+ byte (128 + (cp / 4096) mod 64)
     +:+ byte (128 + (cp / 64) mod 64) +:+ byte (128 + cp mod 64))%N.

Definition isHighSurrogate (cp : N) : bool :=
  ((55296 <=? cp) && (cp <? 56320))%N.
Definition isLowSurrogate (cp : N) : bool :=
  ((56320 <=? cp) && (cp <? 57344))%N.

(** What follows a [\u]: the code point, two escapes long when they form a
    surrogate pair. *)
Definition unicodeEscape (s : string) : option (string * string) :=
  match hex4 s with
  | Some (hi, rest) =>
      if isHighSurrogate hi then
        match rest with
        | String "\" (String "u" rest1) =>
            match hex4 rest1 with
            | Some (lo, rest2) =>
                if isLowSurrogate lo then
                  Some (utf8 (65536 + (hi - 55296) * 1024 + (lo - 56320))%N,
                        rest2)
                else Some (utf8 65533%N, rest)
            | None => Some (utf8 65533%N, rest)
            end
        | _ => Some (utf8 65533%N, rest)
        end
      else if isLowSurrogate hi then Some (utf8 65533%N, rest)
      else Some (utf8 hi, rest)
  | None => None
  end.

(** The characters of a string literal, after its opening quote, up to and
    including the closing one (byte 34); a backslash is byte 92. *)
Fixpoint chars (fuel : nat) (s : string) : option (string * string) :=
  match fuel, s with
  | S fuel', String c rest =>
      match code c with
      | 34%N => Some ("", rest)
      | 92%N =>
          match rest with
          | String e rest1 =>
              let plain (b : N) :=
                match chars fuel' rest1 with
                | Some (tl, rest2) => Some (String (ascii_of_N b) tl, rest2)
                | None => None
                end in
              match code e with
              | 34 => plain 34      (* quote *)
              | 92 => plain 92      (* backslash *)
              | 47 => plain 47      (* / *)
              | 98 => plain 8       (* b *)
              | 102 => plain 12     (* f *)
              | 110 => plain 10     (* n *)
              | 114 => plain 13     (* r *)
              | 116 => plain 9      (* t *)
              | 117 =>              (* u *)
                  match unicodeEscape rest1 with
                  | Some (enc, rest2) =>
                      match chars fuel' rest2 with
                      | Some (tl, rest3) => Some (enc +:+ tl, rest3)
                      | None => None
                      end
                  | None => None
                  end
              | _ => None
              end%N
          | EmptyString => None
          end
      | n =>
          if (n <? 32)%N then None
          else
            match chars fuel' rest with
            | Some (tl, rest1) => Some (String c tl, rest1)
            | None => None
            end
      end
  | _, _ => None
  end.

(** The longest prefix of digits. *)
Fixpoint digits (s : string) : string * string :=
  match s with
  | String c rest =>
      if isDigit c then let '(d, r) := digits rest in (String c d, r)
      else ("", s)
  | EmptyString => ("", s)
  end.

(** A number literal: an optional minus sign; an integer part, either a
    single zero or digits not starting with zero; an optional fraction, a
    dot and at least one digit; an optional exponent, e or E, an optional
    sign and at least one digit. *)
Definition number (s : string) : option (string * string) :=
  let '(sign, s1) :=
    match s with
    | String "-" r => ("-", r)
    | _ => ("", s)
    end in
  let '(int, s2) := digits s1 in
  let intOk :=
    match int with
    | EmptyString => false
    | String "0" (String _ _) => false
    | _ => true
    end in
  if negb intOk then None else
  let frac :=
    match s2 with
    | String "." r =>
        let '(d, r') := digits r in
        if String.eqb d "" then None else Some ("." +:+ d, r')
    | _ => Some ("", s2)
    end in
  match frac with
  | None => None
  | Some (f, s3) =>
      match s3 with
      | String e r =>
          if Ascii.eqb e "e" || Ascii.eqb e "E" then
            let '(esign, r1) :=
              match r with
              | String "+" r' => ("+", r')
              | String "-" r' => ("-", r')
              | _ => ("", r)
              end in
            let '(d, r2) := digits r1 in
            if String.eqb d "" then None
            else Some (sign +:+ int +:+ f +:+ String e esign +:+ d, r2)
          else Some (sign +:+ int +:+ f, s3)
      | EmptyString => Some (sign +:+ int +:+ f, s3)
      end
  end.

(** [s] starts with [lit]: what follows. *)
Fixpoint literal (lit s : string) : option string :=
  match lit, s with
  | EmptyString, _ => Some s
  | String a lit', String b s' =>
      if Ascii.eqb a b then literal lit' s' else None
  | _, _ => None
  end.

(** A value; the members of an object after its opening brace; the
    elements of an array after its opening bracket.  Every call consumes a
    character, so the length of the text, plus one, is fuel enough. *)
Fixpoint parseValue (fuel : nat) (s : string) : option (value * string) :=
  match fuel with
  | 0 => None
  | S fuel' =>
      match skipSpace s with
      | String c rest =>
          match code c with
          | 123 (* opening brace *) =>
              match skipSpace rest with
              | String "}" rest1 => Some (Object [], rest1)
              | _ =>
                  match parseMembers fuel' rest with
                  | Some (ms, rest1) => Some (Object ms, rest1)
                  | None => None
                  end
              end
          | 91 (* opening bracket *) =>
              match skipSpace rest with
              | String "]" rest1 => Some (Array [], rest1)
              | _ =>
                  match parseElems fuel' rest with
                  | Some (vs, rest1) => Some (Array vs, rest1)
                  | None => None
                  end
              end
          | 34 (* quote *) =>
              match chars (String.length rest) rest with
              | Some (str, rest1) => Some (Str str, rest1)
              | None => None
              end
          | 116 (* t *) =>
              match literal "true" (String c rest) with
              | Some rest1 => Some (Bool true, rest1)
              | None => None
              end
          | 102 (* f *) =>
              match literal "false" (String c rest) with
              | Some rest1 => Some (Bool false, rest1)
              | None => None
              end
          | 110 (* n *) =>
              match literal "null" (String c rest) with
              | Some rest1 => Some (Null, rest1)
              | None => None
              end
          | _ =>
              match number (String c rest) with
              | Some (lit, rest1) => Some (Number lit, rest1)
              | None => None
              end
          end%N
      | EmptyString => None
      end
  end
with parseMembers (fuel : nat) (s : string)
  : option (list (string * value) * string) :=
  match fuel with
  | 0 => None
  | S fuel' =>
      match skipSpace s with
      | String c rest =>
          if negb (code c =? 34)%N then None else
          match chars (String.length rest) rest with
          | Some (key, rest1) =>
              match skipSpace rest1 with
              | String ":" rest2 =>
                  match parseValue fuel' rest2 with
                  | Some (v, rest3) =>
                      match skipSpace rest3 with
                      | String "," rest4 =>
                          match parseMembers fuel' rest4 with
                          | Some (ms, rest5) => Some ((key, v) :: ms, rest5)
                          | None => None
                          end
                      | String "}" rest4 => Some ([(key, v)], rest4)
                      | _ => None
                      end
                  | None => None
                  end
              | _ => None
              end
          | None => None
          end
      | EmptyString => None
      end
  end
with parseElems (fuel : nat) (s : string) : option (list value * string) :=
  match fuel with
  | 0 => None
  | S fuel' =>
      match parseValue fuel' s with
      | Some (v, rest) =>
          match skipSpace rest with
          | String "," rest1 =>
              match parseElems fuel' rest1 with
              | Some (vs, rest2) => Some (v :: vs, rest2)
              | None => None
              end
          | String "]" rest1 => Some ([v], rest1)
          | _ => None
          end
      | None => None
      end
  end.

(** A whole text: one value, with nothing but white space around it. *)
Definition parse (s : string) : option value :=
  match parseValue (S (String.length s)) s with
  | Some (v, rest) =>
      if String.eqb (skipSpace rest) "" then Some v else None
  | None => None
  end.

(** The member of an object named [key]; of two members with the same
    name the later one counts. *)
Fixpoint member (key : string) (ms : list (string * value)) : option value :=
  match ms with
  | [] => None
  | (k, v) :: ms' =>
      match member key ms' with
      | Some v' => Some v'
      | None => if String.eqb k key then Some v else None
      end
  end.

(** A member decoded into a Go [string] field: absent or [null] leaves
    the zero value, anything but a string is a type error. *)
Definition stringField (key : string) (ms : list (string * value))
  : option string :=
  match member key ms with
  | None | Some Null => Some ""
  | Some (Str s) => Some s
  | Some _ => None
  end.

(** JSON texts in this file are written with an apostrophe where the
    text has a double quote (byte 34); [quoted] puts the quotes back. *)
Fixpoint quoted (s : string) : string :=
  match s with
  | String c rest =>
      String (if Ascii.eqb c "'" then ascii_of_N 34 else c) (quoted rest)
  | EmptyString => EmptyString
  end.

End json.

(** * internal/airbyte: the log scanner *)

Module airbyte.

(** Modelled from the spec: the scanner ([NewLogScanner], [Scan], [Line],
    [Err]) is declared outside the given sources, which hold its test
    only.  "Pull-style classifier exposing Scan() -> bool (advances to next
    line, false at end of input or on read failure), Line -> LogRecord (the
    most recently scanned record), Err() -> error (non-nil only on an
    underlying read failure)". *)

(** The record of a line: [s.Line.Level], [s.Line.Message]. *)
Record logLine := { Level : string; Message : string }.

(** An [io.Reader]: the bytes it yields and how it ends, with a failure or,
    for [None], at end of input. *)
Record Reader := { content : string; failure : option error }.

(** [strings.NewReader] *)
Definition NewReader (s : string) : Reader :=
  {| content := s; failure := None |}.

(** [strings.TrimSpace], on ASCII white space. *)
Definition TrimSpace (s : string) : string :=
  String.rev (json.skipSpace (String.rev (json.skipSpace s))).

(** Drop one trailing carriage return. *)
Fixpoint dropCR (s : string) : string :=
  match s with
  | String c EmptyString => if (json.code c =? 13)%N then "" else s
  | String c rest => String c (dropCR rest)
  | EmptyString => ""
  end.

(** The lines of a text: ended by a newline, the last one by the end of
    the text when it is not empty. *)
Fixpoint linesFrom (cur s : string) : list string :=
  match s with
  | String c rest =>
      if (json.code c =? 10)%N then dropCR cur :: linesFrom "" rest
      else linesFrom (cur +:+ String c "") rest
  | EmptyString => if String.eqb cur "" then [] else [dropCR cur]
  end.

Definition splitLines (s : string) : list string := linesFrom "" s.

Record LogScanner := {
  unread : list string;
  ending : option error;
  Line : logLine;
  err : option error;
}.

(** [NewLogScanner] *)
Definition NewLogScanner (r : Reader) : LogScanner :=
  {| unread := splitLines (content r);
     ending := failure r;
     Line := {| Level := ""; Message := "" |};
     err := None |}.

(** Modelled from the spec: "attempt to parse the line as a structured
    record with fields {timestamp, message, level, logSource, caller,
    throwable}.  If parsing succeeds, the record's level and message fields
    are surfaced verbatim (level may be an empty string if absent in the
    source)". *)
Definition unmarshal (line : string) : option logLine :=
  match json.parse line with
  | Some (json.Object ms) =>
      match json.stringField "level" ms, json.stringField "message" ms with
      | Some lvl, Some msg => Some {| Level := lvl; Message := msg |}
      | _, _ => None
      end
  | _ => None
  end.

(** Modelled from the spec: "If parsing fails (not valid structured data),
    the entire raw line is treated as the message with an empty level." *)
Definition classify (line : string) : logLine :=
  match unmarshal line with
  | Some data => data
  | None => {| Level := ""; Message := line |}
  end.

(** [Scan] *)
Definition Scan (s : LogScanner) : bool * LogScanner :=
  match unread s with
  | line :: rest =>
      (true,
       {| unread := rest; ending := ending s;
          Line := classify line; err := err s |})
  | [] =>
      (false,
       {| unread := []; ending := ending s;
          Line := Line s; err := ending s |})
  end.

(** [Err] *)
Definition Err (s : LogScanner) : option error := err s.

(** What [expectLogLine] of the test looks at, [n] times in a row: what
    [Scan] returned, then [Line] and [Err()]. *)
Fixpoint observe (n : nat) (s : LogScanner)
  : list (bool * logLine * option error) :=
  match n with
  | 0 => []
  | S n' =>
      let '(more, s') := Scan s in
      (more, Line s', Err s') :: observe n' s'
  end.

(** [testLogs] of the test. *)
Definition testLogs : string :=
  TrimSpace
    (local.nl +:+ "nonjsonline" +:+ local.nl +:+
     json.quoted "{'timestamp':1734723317023,'message':'Waiting for database to become available...','level':'WARN','logSource':'platform','caller':{'className':'io.airbyte.db.check.DatabaseAvailabilityCheck','methodName':'check','lineNumber':38,'threadName':'main'},'throwable':null}"
     +:+ local.nl).

(** The two-line input of the spec, its elided members filled in. *)
Definition specLogs : string :=
  "plaintext line" +:+ local.nl +:+
  json.quoted "{'timestamp':1,'message':'m','level':'WARN','logSource':'platform','caller':null,'throwable':null}".

End airbyte.

(** * Test doubles *)

(** Concrete worlds, in the manner of the mocks of the Go tests, on which
    the statements below are run. *)
Module fixtures.

(** Member names are matched to struct fields as encoding/json does:
    by their folded names, ASCII letters in upper case and the two
    letters of Unicode that fold to an ASCII one, the long s (C5 BF) and
    the Kelvin sign (E2 84 AA), as S and K. *)
Fixpoint foldName (s : string) : string :=
  match s with
  | String c rest =>
      let n := json.code c in
      if ((97 <=? n) && (n <=? 122))%N then
        String (ascii_of_N (n - 32)) (foldName rest)
      else
        match rest with
        | String c1 rest1 =>
            if ((n =? 197) && (json.code c1 =? 191))%N then
              String "S" (foldName rest1)
            else
              match rest1 with
              | String c2 rest2 =>
                  if ((n =? 226) && (json.code c1 =? 132)
                      && (json.code c2 =? 170))%N
                  then String "K" (foldName rest2)
                  else String c (foldName rest)
              | EmptyString => String c (foldName rest)
              end
        | EmptyString => String c (foldName rest)
        end
  | EmptyString => EmptyString
  end.

Definition nameMatches (field key : string) : bool :=
  String.eqb (foldName key) (foldName field).

Definition between (lo hi : N) (c : ascii) : bool :=
  ((lo <=? json.code c) && (json.code c <=? hi))%N.

(** A decoded string is valid UTF-8: every byte that does not start a
    well-formed sequence becomes U+FFFD. *)
Fixpoint validUTF8 (s : string) : string :=
  match s with
  | String c rest =>
      let n := json.code c in
      let bad := json.utf8 65533 +:+ validUTF8 rest in
      if (n <? 128)%N then String c (validUTF8 rest)
      else if between 194 223 c then
        match rest with
        | String c1 r1 =>
            if between 128 191 c1 then String c (String c1 (validUTF8 r1))
            else bad
        | EmptyString => bad
        end
      else if between 224 239 c then
        match rest with
        | String c1 (String c2 r2) =>
            if between (if (n =? 224)%N then 160 else 128)
                       (if (n =? 237)%N then 159 else 191) c1
               && between 128 191 c2
            then String c (String c1 (String c2 (validUTF8 r2)))
            else bad
        | _ => bad
        end
      else if between 240 244 c then
        match rest with
        | String c1 (String c2 (String c3 r3)) =>
            if between (if (n =? 240)%N then 144 else 128)
                       (if (n =? 244)%N then 143 else 191) c1
               && between 128 191 c2 && between 128 191 c3
            then String c (String c1 (String c2 (String c3 (validUTF8 r3))))
            else bad
        | _ => bad
        end
      else bad
  | EmptyString => EmptyString
  end.

(** [json.Unmarshal] into
    [[]struct{ Endpoints struct{ Docker struct{ Host string } `json:docker` } }].
    The members of an object are decoded in order into the same struct,
    so that a repeated member is merged into what the earlier one left;
    members that match no field are skipped, [null] leaves a field as it
    is, and a member of the wrong shape is an error.  The three levels:
    the members of the docker endpoint, of the endpoints, of a context. *)
Fixpoint decodeDocker (ms : list (string * json.value)) (host : string)
  : option string :=
  match ms with
  | [] => Some host
  | (k, v) :: ms' =>
      if nameMatches "Host" k then
        match v with
        | json.Null => decodeDocker ms' host
        | json.Str s => decodeDocker ms' (validUTF8 s)
        | _ => None
        end
      else decodeDocker ms' host
  end.

Fixpoint decodeEndpoints (ms : list (string * json.value)) (host : string)
  : option string :=
  match ms with
  | [] => Some host
  | (k, v) :: ms' =>
      if nameMatches "docker" k then
        match v with
        | json.Null => decodeEndpoints ms' host
        | json.Object ds =>
            match decodeDocker ds host with
            | Some host' => decodeEndpoints ms' host'
            | None => None
            end
        | _ => None
        end
      else decodeEndpoints ms' host
  end.

Fixpoint decodeMembers (ms : list (string * json.value)) (host : string)
  : option string :=
  match ms with
  | [] => Some host
  | (k, v) :: ms' =>
      if nameMatches "Endpoints" k then
        match v with
        | json.Null => decodeMembers ms' host
        | json.Object es =>
            match decodeEndpoints es host with
            | Some host' => decodeMembers ms' host'
            | None => None
            end
        | _ => None
        end
      else decodeMembers ms' host
  end.

Definition decodeContext (v : json.value) : option docker.contextData :=
  match v with
  | json.Object ms =>
      match decodeMembers ms "" with
      | Some host => Some {| docker.Endpoints_Docker_Host := host |}
      | None => None
      end
  | json.Null => Some {| docker.Endpoints_Docker_Host := "" |}
  | _ => None
  end.

Fixpoint decodeAll (vs : list json.value) : option (list docker.contextData) :=
  match vs with
  | [] => Some []
  | v :: vs' =>
      match decodeContext v, decodeAll vs' with
      | Some d, Some ds => Some (d :: ds)
      | _, _ => None
      end
  end.

Definition unmarshalContexts (out : string)
  : result (list docker.contextData) :=
  match json.parse out with
  | Some (json.Array vs) =>
      match decodeAll vs with
      | Some ds => Ok ds
      | None => Err (errorString "json: cannot unmarshal")
      end
  | Some json.Null => Ok []
  | Some _ => Err (errorString "json: cannot unmarshal")
  | None => Err (errorString "invalid character")
  end.

(** A machine: what [docker context inspect] prints, the addresses a
    daemon listens on, and the number of pings sent so far. *)
Record machine := {
  contextInspect : result string;
  listening : list string;
  pings : nat;
}.

#[export] Instance machineRuntime : docker.Runtime machine := {|
  docker.pinger := string;
  docker.Ping cli w :=
    (if existsb (String.eqb cli) (listening w) then None
     else Some (errorString ("dial " +:+ cli +:+ ": connection refused")),
     {| contextInspect := contextInspect w;
        listening := listening w;
        pings := S (pings w) |});
  docker.ErrDocker := errorString "error communicating with docker";
  docker.UserHome := "/home/airbyte";
  docker.dockerContextInspect w := (contextInspect w, w);
  docker.unmarshalContexts := unmarshalContexts;
|}.

(** A client constructor that binds the client to the host it is given,
    and refuses an empty one. *)
Definition newPing : docker.newPingT machine :=
  fun opts w =>
    match opts with
    | WithHost h :: _ =>
        if String.eqb h "" then (Err (errorString "invalid host"), w)
        else (Ok h, w)
    | _ => (Err (errorString "no host"), w)
    end.

(** No docker CLI, no daemon. *)
Definition bare : machine :=
  {| contextInspect := Err (errorString "exec: docker: not found");
     listening := [];
     pings := 0 |}.

(** Docker Desktop on Linux: the daemon answers on the desktop socket
    only, and the CLI knows. *)
Definition desktop : machine :=
  {| contextInspect :=
       Ok (json.quoted "[{'Name':'desktop-linux','Metadata':{},'Endpoints':{'docker':{'Host':'unix:///home/airbyte/.docker/desktop/docker.sock','SkipTLSVerify':false}},'TLSMaterial':{}}]");
     listening := ["unix:///home/airbyte/.docker/desktop/docker.sock"];
     pings := 0 |}.

(** A daemon on the docker-cli socket of the desktop app, no CLI. *)
Definition cliSocket : machine :=
  {| contextInspect := Err (errorString "exec: docker: not found");
     listening := ["unix:///home/airbyte/.docker/desktop/docker-cli.sock"];
     pings := 0 |}.

(** Scripted collaborators for [Run]: each call answers what the script
    says and is counted. *)
Record script := {
  dockerFailure : option error;
  clusterFailure : option error;
  clusterExists : bool;
  managerFailure : option error;
  uninstallFailure : option error;
  deleteFailure : option error;
  calls : nat;
}.

Definition tick (s : script) : script :=
  {| dockerFailure := dockerFailure s;
     clusterFailure := clusterFailure s;
     clusterExists := clusterExists s;
     managerFailure := managerFailure s;
     uninstallFailure := uninstallFailure s;
     deleteFailure := deleteFailure s;
     calls := S (calls s) |}.

Definition answer {A} (a : A) (failure : option error) : result A :=
  match failure with
  | Some e => Err e
  | None => Ok a
  end.

#[export] Instance scripted : local.Collaborators script := {|
  local.Cluster := string;
  local.Manager := unit;
  local.dockerInstalled s :=
    (answer {| docker.Version_ := "27.0.3"; docker.Arch := "amd64";
               docker.Platform := "Docker Engine - Community" |}
       (dockerFailure s), tick s);
  local.provider_Cluster p s :=
    (answer (k8s.ClusterName p) (clusterFailure s), tick s);
  local.cluster_Exists _ s := (clusterExists s, tick s);
  local.cluster_Delete _ s := (deleteFailure s, tick s);
  local.service_NewManager _ s := (answer tt (managerFailure s), tick s);
  local.svcMgr_Uninstall _ _ s := (uninstallFailure s, tick s);
|}.

(** Everything works, and the cluster is there. *)
Definition healthy : script :=
  {| dockerFailure := None; clusterFailure := None; clusterExists := true;
     managerFailure := None; uninstallFailure := None;
     deleteFailure := None; calls := 0 |}.

(** The cluster is not there. *)
Definition absent : script :=
  {| dockerFailure := None; clusterFailure := None; clusterExists := false;
     managerFailure := None; uninstallFailure := None;
     deleteFailure := None; calls := 0 |}.

(** The manager's uninstall fails, the deletion works. *)
Definition stuckNamespace : script :=
  {| dockerFailure := None; clusterFailure := None; clusterExists := true;
     managerFailure := None;
     uninstallFailure := Some (errorString "namespace stuck terminating");
     deleteFailure := None; calls := 0 |}.

(** Everything before the deletion works, the deletion does not. *)
Definition stuckCluster : script :=
  {| dockerFailure := None; clusterFailure := None; clusterExists := true;
     managerFailure := None; uninstallFailure := None;
     deleteFailure := Some (errorString "failed to delete nodes");
     calls := 0 |}.

(** Docker is not installed. *)
Definition noDocker : script :=
  {| dockerFailure := Some docker.errUnableToCreate;
     clusterFailure := None; clusterExists := true;
     managerFailure := None; uninstallFailure := None;
     deleteFailure := None; calls := 0 |}.

(** The paths of a workstation. *)
#[export] Instance workstation : k8s.Layout := {|
  k8s.FileKubeconfig := "abctl.kubeconfig";
  k8s.userDir := "/home/airbyte/.airbyte/abctl";
  k8s.testDir := "/tmp/abctl";
|}.

(** A disk with a home directory and a temporary directory. *)
Definition freshDisk : k8s.world :=
  {| k8s.disk :=
       <["/home" := k8s.Directory]>
         (<["/home/airbyte" := k8s.Directory]>
            (<["/tmp" := k8s.Directory]> ∅));
     k8s.readOnly := false;
     k8s.clusters := ∅;
     k8s.runtimeUp := true |}.

End fixtures.

(** * internal/docker/docker.go: [New] and [Version] *)

Module docker_api.

(** [types.Version] of the docker API: the fields [Version] reads, and
    some of those it leaves aside. *)
Record types_Version := {
  Platform_Name : string;
  Version : string;
  APIVersion : string;
  Os : string;
  Arch : string;
  KernelVersion : string;
}.

(** What [New] and [Version] take from the docker client library and the
    Go runtime: [client.NewClientWithOpts], [runtime.GOOS] and the
    [ServerVersion] method of the client. *)
Class Engine (W : Type) `{docker.Runtime W} := {
  NewClientWithOpts : docker.newPingT W;
  GOOS : string;
  ServerVersion : docker.pinger -> W -> result types_Version * W;
}.

Section Api.
Context {W : Type} `{Engine W}.

(** [func New(ctx context.Context)], returning a [Docker] or an error. *)
Definition New : M W (result docker.Docker) :=
  (* convert the client.NewClientWithOpts to a newPing function *)
  let f : docker.newPingT W :=
    fun opts w =>
      let '(r, w1) := NewClientWithOpts opts w in
      match r with
      | Err err => (Err err, w1)
      | Ok p => (Ok p, w1)
      end in
  docker.newWithOptions f GOOS.

(** The method [Version(ctx context.Context) (Version, error)] of [Docker]: the
    Go pair of a version, zero on failure, and an error, nil on success. *)
Definition Docker_Version (d : docker.Docker) (w : W)
  : (docker.Version * option error) * W :=
  let '(r, w1) := ServerVersion (docker.Client d) w in
  match r with
  | Err err =>
      (({| docker.Version_ := ""; docker.Arch := ""; docker.Platform := "" |},
        Some (Errorf_w "unable to determine server version: " err "")), w1)
  | Ok ver =>
      (({| docker.Version_ := Version ver;
           docker.Arch := Arch ver;
           docker.Platform := Platform_Name ver |}, None), w1)
  end.

End Api.
End docker_api.

(** ** More vocabulary for statements about traces *)

(** The collaborator calls of the uninstall sequence. *)
Inductive Step :=
| StepDockerInstalled
| StepCluster
| StepExists
| StepNewManager
| StepUninstall
| StepDelete.

Definition stepOf (e : Event) : option Step :=
  match e with
  | CallDockerInstalled _ => Some StepDockerInstalled
  | CallCluster _ => Some StepCluster
  | CallExists _ => Some StepExists
  | CallNewManager _ => Some StepNewManager
  | CallUninstall _ _ => Some StepUninstall
  | CallDelete _ => Some StepDelete
  | _ => None
  end.

(** The collaborator calls of a run, in order. *)
Fixpoint steps (t : list Event) : list Step :=
  match t with
  | [] => []
  | e :: t' =>
      match stepOf e with
      | Some s => s :: steps t'
      | None => steps t'
      end
  end.

Definition isSpanEnd (e : Event) : bool :=
  match e with SpanEnd => true | _ => false end.
Definition isSpinnerSuccess (e : Event) : bool :=
  match e with SpinnerSuccess _ => true | _ => false end.
Definition isDeleteSuccess (e : Event) : bool :=
  match e with CallDelete None => true | _ => false end.
Definition isClusterFailure (e : Event) : bool :=
  match e with CallCluster (Some _) => true | _ => false end.
Definition isTelEnd (e : Event) : bool :=
  match e with TelEnd _ _ => true | _ => false end.

(** The option lists the client constructor was called with, in order. *)
Fixpoint constructed (t : list Event) : list (list Opt) :=
  match t with
  | [] => []
  | CallNewPing opts :: t' => opts :: constructed t'
  | _ :: t' => constructed t'
  end.

(** Whether a result is a success. *)
Definition isOk {A} (r : result A) : bool :=
  match r with Ok _ => true | Err _ => false end.

(** The number of pings sent. *)
Fixpoint pinged (t : list Event) : nat :=
  match t with
  | [] => 0
  | CallPing :: t' => S (pinged t')
  | _ :: t' => pinged t'
  end.

(** ** More test doubles *)

Module fixtures_more.
Import fixtures.

(** The lookup of the cluster fails. *)
Definition lookupFails : script :=
  {| dockerFailure := None;
     clusterFailure := Some (errorString "unable to create directory");
     clusterExists := true;
     managerFailure := None; uninstallFailure := None;
     deleteFailure := None; calls := 0 |}.

(** A machine whose temporary directory is the [.airbyte] directory of
    the user: the directory of the test profile is the user's. *)
Definition tmpInHome : k8s.Layout :=
  {| k8s.FileKubeconfig := "abctl.kubeconfig";
     k8s.userDir := "/home/airbyte/.airbyte/abctl";
     k8s.testDir := "/home/airbyte/.airbyte/abctl" |}.

End fixtures_more.
(** * Properties *)

(** ** Trace projections *)

Lemma dialed_app t1 t2 : dialed (t1 ++ t2) = dialed t1 ++ dialed t2.
Proof.
  induction t1 as [|e t1 IH]; [reflexivity|].
  destruct e; simpl; try apply IH.
  destruct opts as [|[] ?]; simpl; rewrite ?IH; reflexivity.
Qed.

Lemma printed_app lvl t1 t2 :
  printed lvl (t1 ++ t2) = printed lvl t1 ++ printed lvl t2.
Proof.
  induction t1 as [|e t1 IH]; [reflexivity|].
  destruct e; simpl; try apply IH.
  destruct (decide (lvl0 = lvl)); simpl; rewrite ?IH; reflexivity.
Qed.


(** ** Errors *)

Lemma error_eqb_refl e : error_eqb e e = true.
Proof.
  induction e as [s|m e IH]; simpl.
  - apply String.eqb_refl.
  - rewrite String.eqb_refl, IH. reflexivity.
Qed.

Lemma error_eqb_eq a : forall b, error_eqb a b = true -> a = b.
Proof.
  induction a as [s|m e IH]; intros [s'|m' e']; simpl; try discriminate.
  - intros ->%String.eqb_eq. reflexivity.
  - intros [->%String.eqb_eq ->%IH]%andb_prop. reflexivity.
Qed.

(** An error is itself, and is whatever the error it wraps is. *)
Lemma Is_refl e : Is e e = true.
Proof. destruct e; simpl; rewrite ?String.eqb_refl, ?error_eqb_refl; reflexivity. Qed.

Lemma Is_wraps msg inner : Is (wrapError msg inner) inner = true.
Proof.
  change (Is (wrapError msg inner) inner)
    with (if error_eqb (wrapError msg inner) inner then true
          else Is inner inner).
  rewrite Is_refl. destruct (error_eqb (wrapError msg inner) inner); reflexivity.
Qed.

Lemma Is_wrapError msg inner target :
  Is (wrapError msg inner) target = true ->
  target = wrapError msg inner \/ Is inner target = true.
Proof.
  cbn [Is]. destruct (error_eqb (wrapError msg inner) target) eqn:Heq.
  - intros _. left. symmetry. apply error_eqb_eq, Heq.
  - auto.
Qed.

(** ** The runtime connector *)

Section ConnectorFacts.
Context {W : Type} `{docker.Runtime W}.
Import docker.

Ltac run_call f w := unfold call; destruct (f w) as [? ?] eqn:?; simpl.

(** A candidate fails exactly when the constructor fails, or the
    constructor succeeds and the ping of its client fails. *)
Lemma createAndPing_Err newPing host opts w e :
  value (createAndPing newPing host opts w) = Err e <->
  (exists err, fst (newPing (WithHost host :: opts) w) = Err err /\
     e = Errorf_w "unable to create docker client: " err "") \/
  (exists cli w1 err, newPing (WithHost host :: opts) w = (Ok cli, w1) /\
     fst (Ping cli w1) = Some err /\
     e = Errorf_w "unable to ping docker client: " err "").
Proof.
  unfold createAndPing, bind, call, ret, value.
  destruct (newPing _ w) as [[cli|err] w1] eqn:Hn; simpl.
  - destruct (Ping cli w1) as [[err|] w2] eqn:Hp; simpl; split.
    + intros [= <-]. right. exists cli, w1, err. rewrite Hp. auto.
    + intros [(? & [=] & _)|(c & w' & err' & [= <- <-] & Hp' & ->)].
      rewrite Hp in Hp'. simpl in Hp'. congruence.
    + discriminate.
    + intros [(? & [=] & _)|(c & w' & err' & [= <- <-] & Hp' & _)].
      rewrite Hp in Hp'. discriminate.
  - split.
    + intros [= <-]. left. eauto.
    + intros [(err' & [= <-] & ->)|(c & w' & ? & [=] & _)]. reflexivity.
Qed.

(** Whatever the outcome, one attempt dials its host once and prints
    nothing. *)
Lemma createAndPing_trace newPing host w :
  dialed (trace (createAndPing newPing host dockerOpts w)) = [host] /\
  printed Debug (trace (createAndPing newPing host dockerOpts w)) = [].
Proof.
  unfold createAndPing, bind, call, ret, trace.
  destruct (newPing _ w) as [[cli|err] w1]; simpl; [|auto].
  destruct (Ping cli w1) as [[err|] w2]; simpl; auto.
Qed.

Lemma failures_length newPing hosts : forall w errs w1,
  failures newPing hosts w = Some (errs, w1) -> length errs = length hosts.
Proof.
  induction hosts as [|h hosts IH]; simpl; intros w errs w1.
  - intros [= <- _]. reflexivity.
  - destruct (createAndPing newPing h dockerOpts w) as [[[cli|e] w'] t];
      [discriminate|].
    destruct (failures newPing hosts w') as [[es w2]|] eqn:Hf; [|discriminate].
    intros [= <- _]. simpl. f_equal. eauto.
Qed.

(** The loop over a list whose first candidates fail: it walks through
    them, one attempt and one debug line each, and carries on with the
    rest of the list from the world they left. *)
Lemma connectLoop_skip newPing pre : forall rest w errs w1,
  failures newPing pre w = Some (errs, w1) ->
  exists t,
    connectLoop newPing (pre ++ rest) w =
      (value (connectLoop newPing rest w1),
       final (connectLoop newPing rest w1),
       t ++ trace (connectLoop newPing rest w1)) /\
    dialed t = pre /\ printed Debug t = debugLines pre errs.
Proof.
  induction pre as [|h pre IH]; simpl; intros rest w errs w1.
  - intros [= <- <-]. exists []. simpl.
    destruct (connectLoop newPing rest w) as [[? ?] ?]. auto.
  - pose proof (createAndPing_trace newPing h w) as [Hd Hp].
    destruct (createAndPing newPing h dockerOpts w) as [[[cli|e] w'] t] eqn:Hc;
      [discriminate|].
    destruct (failures newPing pre w') as [[es w2]|] eqn:Hf; [|discriminate].
    intros [= <- <-].
    destruct (IH rest w' es w2 Hf) as (t' & Heq & Hd' & Hp').
    exists (t ++ Pterm Debug (connectDebugMsg h e) :: t').
    unfold bind at 1. rewrite Hc. unfold bind, emit. rewrite Heq.
    unfold trace in Hd, Hp. simpl in Hd, Hp.
    rewrite dialed_app, printed_app, Hd, Hp. simpl.
    rewrite Hd', Hp'. rewrite <- app_assoc. simpl. auto.
Qed.

(** The hosts dialed by the loop are an initial segment of its list. *)
Lemma connectLoop_dialed_prefix newPing hosts : forall w,
  exists k, dialed (trace (connectLoop newPing hosts w)) = take k hosts.
Proof.
  induction hosts as [|h hosts IH]; intros w.
  - exists 0. reflexivity.
  - simpl. pose proof (createAndPing_trace newPing h w) as [Hd _].
    unfold bind at 1.
    destruct (createAndPing newPing h dockerOpts w) as [[[cli|e] w'] t].
    + exists 1. unfold ret, trace in *. simpl in *.
      rewrite app_nil_r. exact Hd.
    + destruct (IH w') as [k Hk]. exists (S k).
      unfold bind, emit.
      destruct (connectLoop newPing hosts w') as [[r w2] t2].
      unfold trace in *. simpl in *.
      rewrite dialed_app, Hd. simpl. rewrite Hk. reflexivity.
Qed.

(** C5.  Whenever the first candidates of the list all fail (at client
    construction or at the ping) and the next one, [h], succeeds at both,
    the loop returns the client the constructor built for [h], has dialed
    exactly the failed candidates and [h], in order, and nothing after
    [h]; it has printed one debug line per failed candidate, and leaves the
    world as the successful attempt left it. *)
Theorem connectLoop_first_live newPing pre h post w errs w1 cli w2 t :
  failures newPing pre w = Some (errs, w1) ->
  createAndPing newPing h dockerOpts w1 = (Ok cli, w2, t) ->
  let run := connectLoop newPing (pre ++ h :: post) w in
  value run = Ok {| Client := cli |} /\
  (exists w', newPing (WithHost h :: dockerOpts) w1 = (Ok cli, w')) /\
  final run = w2 /\
  dialed (trace run) = pre ++ [h] /\
  length errs = length pre /\
  printed Debug (trace run) = debugLines pre errs.
Proof.
  intros Hf Hc run.
  destruct (connectLoop_skip newPing pre (h :: post) w errs w1 Hf)
    as (t0 & Heq & Hd & Hp).
  pose proof (createAndPing_trace newPing h w1) as [Hd1 Hp1].
  subst run. rewrite Heq. clear Heq.
  simpl. unfold bind. rewrite Hc in *.
  unfold ret, value, final, trace in *. simpl in *.
  rewrite (app_nil_r t), dialed_app, printed_app, Hd, Hp, Hd1, Hp1.
  rewrite app_nil_r. repeat split; auto.
  - revert Hc. unfold createAndPing, bind, call, ret.
    destruct (newPing _ w1) as [[c|e] w'']; simpl; [|discriminate].
    destruct (Ping c w'') as [[e|] w3]; simpl; [discriminate|].
    intros [= <- _ _]. eauto.
  - eapply failures_length; eauto.
Qed.

(** C4, as the code has it.  When every candidate fails, [newWithOptions]
    returns the error built from [abctl.ErrDocker] alone: its text is the
    text of [ErrDocker] followed by ": unable to create docker client", it
    unwraps to [ErrDocker] and to nothing else, so the failures of the
    candidates are not part of it; they were printed at debug level, one
    line per candidate. *)
Theorem newWithOptions_exhausted newPing goos w hosts w0 t0 errs w1 :
  potentialHosts goos w = (hosts, w0, t0) ->
  failures newPing hosts w0 = Some (errs, w1) ->
  let run := newWithOptions newPing goos w in
  value run = Err errUnableToCreate /\
  Error errUnableToCreate
    = Error ErrDocker +:+ ": unable to create docker client" /\
  Unwrap errUnableToCreate = Some ErrDocker /\
  Is errUnableToCreate ErrDocker = true /\
  (forall target, Is errUnableToCreate target = true ->
     target = errUnableToCreate \/ Is ErrDocker target = true) /\
  dialed (trace run) = hosts /\
  printed Debug (trace run) = debugLines hosts errs /\
  final run = w1.
Proof.
  intros Hh Hf run.
  destruct (connectLoop_skip newPing hosts [] w0 errs w1 Hf)
    as (t & Heq & Hd & Hp).
  rewrite app_nil_r in Heq.
  assert (Ht0 : dialed t0 = [] /\ printed Debug t0 = []).
  { revert Hh. unfold potentialHosts, bind, call, ret.
    destruct (dockerContextInspect w) as [r w']. simpl.
    intros [= _ _ <-]. auto. }
  destruct Ht0 as [Hd0 Hp0].
  subst run. unfold newWithOptions, bind. rewrite Hh, Heq.
  unfold value, final, trace, ret. simpl.
  rewrite !dialed_app, !printed_app, Hd, Hp, Hd0, Hp0. simpl.
  rewrite !app_nil_r.
  do 3 (split; [reflexivity|]).
  split; [|split; [|auto]].
  - unfold errUnableToCreate, Errorf_w. apply Is_wraps.
  - intros target Hi. apply Is_wrapError in Hi. exact Hi.
Qed.

(** C10.  The candidate list is the endpoint of the current context, when
    there is a usable one, followed by the fallbacks of the platform:
    on darwin the standard socket then the socket of the desktop app under
    the user's home, on windows the named pipe alone, and anywhere else the
    standard socket then the docker-cli socket of the desktop app under the
    user's home.  The connector dials an initial segment of that list, in
    that order. *)
Theorem potentialHosts_order goos w :
  value (potentialHosts goos w)
    = match currentContextEndpoint w with
      | Some h => [h]
      | None => []
      end ++ fallbackHosts goos /\
  fallbackHosts "darwin"
    = ["unix:///var/run/docker.sock";
       "unix://" +:+ UserHome +:+ "/.docker/run/docker.sock"] /\
  fallbackHosts "windows" = ["npipe:////./pipe/docker_engine"] /\
  (goos <> "darwin" -> goos <> "windows" ->
   fallbackHosts goos
     = ["unix:///var/run/docker.sock";
        "unix://" +:+ UserHome +:+ "/.docker/desktop/docker-cli.sock"]) /\
  (forall newPing, exists k,
     dialed (trace (newWithOptions newPing goos w))
       = take k (value (potentialHosts goos w))).
Proof.
  repeat split.
  - unfold potentialHosts, currentContextEndpoint, bind, call, ret, value.
    destruct (dockerContextInspect w) as [[out|e] w1]; simpl; [|reflexivity].
    destruct (unmarshalContexts out) as [[|d data]|e]; simpl; try reflexivity.
    destruct (String.eqb (Endpoints_Docker_Host d) ""); reflexivity.
  - intros Hd Hw. unfold fallbackHosts.
    destruct (String.eqb_spec goos "darwin"); [contradiction|].
    destruct (String.eqb_spec goos "windows"); [contradiction|].
    reflexivity.
  - intros newPing. unfold newWithOptions, bind.
    destruct (potentialHosts goos w) as [[hosts w0] t0] eqn:Hh.
    assert (Hd0 : dialed t0 = []).
    { revert Hh. unfold potentialHosts, bind, call, ret.
      destruct (dockerContextInspect w) as [r w']. simpl.
      intros [= _ _ <-]. auto. }
    destruct (connectLoop_dialed_prefix newPing hosts w0) as [k Hk].
    exists k. destruct (connectLoop newPing hosts w0) as [[r w2] t2].
    unfold trace, value in *. simpl in *.
    rewrite dialed_app, Hd0. exact Hk.
Qed.

End ConnectorFacts.

(** ** The uninstall sequence *)

Section UninstallFacts.
Context {W : Type} `{local.Collaborators W}.
Import local.

(** Run one more collaborator call of the sequence, by cases on what it
    returns. *)
Ltac next_call :=
  match goal with
  | |- context [dockerInstalled ?w] =>
      destruct (dockerInstalled w) as [[?|?] ?] eqn:?
  | |- context [provider_Cluster ?p ?w] =>
      destruct (provider_Cluster p w) as [[?|?] ?] eqn:?
  | |- context [cluster_Exists ?c ?w] =>
      destruct (cluster_Exists c w) as [[|] ?] eqn:?
  | |- context [service_NewManager ?p ?w] =>
      destruct (service_NewManager p w) as [[?|?] ?] eqn:?
  | |- context [svcMgr_Uninstall ?m ?o ?w] =>
      destruct (svcMgr_Uninstall m o w) as [[?|] ?] eqn:?
  | |- context [cluster_Delete ?c ?w] =>
      destruct (cluster_Delete c w) as [[?|] ?] eqn:?
  end; simpl.

Ltac run_all :=
  cbv zeta;
  unfold Run, uninstall, telemetry.Wrap, bind, call, emit, ret,
    value, final, trace;
  simpl; repeat next_call.

(** An event of the trace that is one particular call pins down what that
    call returned. *)
Ltac pin_event :=
  simpl; intros;
  repeat match goal with
    | H : _ \/ _ |- _ => destruct H
    | H : False |- _ => destruct H
    | H : @eq Event _ _ |- _ => first [discriminate H | injection H as ?]
    end; subst.

(** C2.  In every run whose existence check answers that the cluster does
    not exist, [Run] returns nil; the check is the last call it makes: what
    follows is the success message, the closing of the telemetry scope with
    a nil outcome and the closing of the span.  No deployment manager is
    constructed and no deletion is attempted. *)
Theorem Run_absent_cluster u provider w :
  let run := Run u provider w in
  existsb (isExistsAnswer false) (trace run) = true ->
  value run = None /\
  (exists before,
     trace run = before ++
       [CallExists false;
        Pterm Success ("Cluster '" +:+ k8s.ClusterName provider
                       +:+ "' does not exist" +:+ nl
                       +:+ "No additional action required");
        TelEnd telemetry.Uninstall None;
        SpanEnd] /\
     existsb isExists before = false) /\
  existsb isNewManager (trace run) = false /\
  existsb isUninstall (trace run) = false /\
  existsb isDelete (trace run) = false.
Proof.
  run_all; try discriminate.
  intros _. repeat split.
  eexists [_; _; _; _; _; _; _; _]. split; reflexivity.
Qed.



(** The deferred [span.End()]: whatever happens, the span opened first is
    closed last. *)
Lemma Run_span_closes u provider w :
  exists middle,
    trace (Run u provider w) = SpanNew "local uninstall" :: middle ++ [SpanEnd].
Proof.
  run_all;
    match goal with
    | |- exists m, _ :: ?t = _ =>
        let n := eval cbv in (length t - 1) in
        exists (take n t); reflexivity
    end.
Qed.

(** C6, as the code has it.  The span "local uninstall" is opened first
    and given the persisted attribute before the runtime is verified; the
    verification comes next, and neither happens again.  When the
    verification fails, [Run] returns its error wrapped, and the rest of
    the run is the error message and the closing of the span: no telemetry
    scope, no cluster lookup, no existence check, no manager, no deletion.
    The telemetry scope of the uninstall operation is opened only after a
    successful verification, and the span is closed last on every path. *)
Theorem Run_span_then_verification u provider w :
  let run := Run u provider w in
  (exists rest,
     trace run =
       [SpanNew "local uninstall";
        SpanSetBool "persisted" (Persisted u);
        SpinnerStart "Starting uninstallation";
        SpinnerUpdateText "Checking for Docker installation";
        CallDockerInstalled (failureOf (fst (dockerInstalled w)))] ++ rest /\
     existsb isSpanNew rest = false /\
     existsb isPersistedAttr rest = false /\
     existsb isDockerInstalled rest = false) /\
  (forall err, fst (dockerInstalled w) = Err err ->
     value run = Some (Errorf_w
                         "unable to determine docker installation status: "
                         err "") /\
     final run = snd (dockerInstalled w) /\
     trace run =
       [SpanNew "local uninstall";
        SpanSetBool "persisted" (Persisted u);
        SpinnerStart "Starting uninstallation";
        SpinnerUpdateText "Checking for Docker installation";
        CallDockerInstalled (Some err);
        Pterm ErrorLvl "Unable to determine if Docker is installed";
        SpanEnd]) /\
  (existsb isTelStart (trace run) = true ->
   failureOf (fst (dockerInstalled w)) = None /\
   precedes isDockerInstalled isTelStart (trace run) = true) /\
  (exists middle,
     trace run = SpanNew "local uninstall" :: middle ++ [SpanEnd]).
Proof.
  cbv zeta. split; [|split; [|split]].
  - run_all; eexists; (split; [reflexivity|]); simpl; auto.
  - intros err. run_all; try discriminate; intros [= ->]; auto.
  - run_all; try discriminate; auto.
  - apply Run_span_closes.
Qed.

End UninstallFacts.

(** ** The log scanner *)

Module LogScannerFacts.
Import airbyte.

Lemma last_cons {A} (l : list A) : forall x d,
  List.last (x :: l) d = List.last l x.
Proof.
  induction l as [|y l IH]; intros x d; [reflexivity|].
  change (List.last (x :: y :: l) d) with (List.last (y :: l) d).
  rewrite (IH y d), (IH y x). reflexivity.
Qed.

(** Scanning once more than there are lines: a record for each line, with
    a nil error throughout, then the end of the input, where [Line] stays
    and [Err] reports how the reader ended. *)
Lemma observe_lines ls : forall ending line0,
  observe (S (length ls))
    {| unread := ls; ending := ending; Line := line0; err := None |}
  = map (fun l => (true, classify l, None)) ls
    ++ [(false, List.last (map classify ls) line0, ending)].
Proof.
  induction ls as [|l ls IH]; intros ending line0; [reflexivity|].
  change (observe (S (length (l :: ls))) ?s)
    with (let '(more, s') := Scan s in
          (more, Line s', Err s') :: observe (S (length ls)) s').
  cbn [Scan unread]. unfold Err at 1. cbn [err Line airbyte.ending].
  rewrite IH. cbn [map app].
  rewrite (last_cons _ (classify l) line0). reflexivity.
Qed.

(** C7.  Whatever the reader yields, scanning gives one record per line,
    in order, each the classification of its line, and [Err] stays nil on
    every one of them, parsable or not; only the scan after the last line
    returns false and reports how the reader ended.  A line that is a JSON
    object with string members level and message is classified as that
    level and that message; a line that does not decode is classified as
    the empty level with the whole line as message, and a line that is not
    JSON does not decode.  On the two-line input of the spec and on the
    input of the Go test the records are the expected ones. *)
Theorem Scan_one_record_per_line (r : Reader) :
  let lines := splitLines (content r) in
  (exists final,
     observe (S (length lines)) (NewLogScanner r)
     = map (fun l => (true, classify l, None)) lines
       ++ [(false, final, failure r)]) /\
  (forall line ms lvl msg,
     json.parse line = Some (json.Object ms) ->
     json.stringField "level" ms = Some lvl ->
     json.stringField "message" ms = Some msg ->
     classify line = {| Level := lvl; Message := msg |}) /\
  (forall line, unmarshal line = None ->
     classify line = {| Level := ""; Message := line |}) /\
  (forall line, json.parse line = None -> unmarshal line = None) /\
  observe 2 (NewLogScanner (NewReader specLogs))
  = [(true, {| Level := ""; Message := "plaintext line" |}, None);
     (true, {| Level := "WARN"; Message := "m" |}, None)] /\
  observe 2 (NewLogScanner (NewReader testLogs))
  = [(true, {| Level := ""; Message := "nonjsonline" |}, None);
     (true, {| Level := "WARN";
               Message := "Waiting for database to become available..." |},
      None)].
Proof.
  cbv zeta. split; [|split; [|split; [|split; [|split]]]].
  - eexists. unfold NewLogScanner. apply observe_lines.
  - intros line ms lvl msg Hp Hl Hm. unfold classify, unmarshal.
    rewrite Hp, Hl, Hm. reflexivity.
  - intros line Hu. unfold classify. rewrite Hu. reflexivity.
  - intros line Hp. unfold unmarshal. rewrite Hp. reflexivity.
  - vm_compute. reflexivity.
  - vm_compute. reflexivity.
Qed.

End LogScannerFacts.

(** ** The provider profiles and [Provider.Cluster] *)

Module ProviderFacts.
Import k8s.

Lemma append_nonempty s t : t <> "" -> s +:+ t <> "".
Proof. destruct s; simpl; [auto|discriminate]. Qed.

Lemma append_length s t :
  String.length (s +:+ t) = String.length s + String.length t.
Proof. induction s as [|c s IH]; simpl; [reflexivity|]. rewrite IH. reflexivity. Qed.

(** Strings with a common suffix and equal as wholes have equal fronts. *)
Lemma append_inv_tail t : forall s1 s2, s1 +:+ t = s2 +:+ t -> s1 = s2.
Proof.
  induction s1 as [|c s1 IH]; intros [|d s2] Heq.
  - reflexivity.
  - apply (f_equal String.length) in Heq.
    rewrite !append_length in Heq. cbn in Heq. lia.
  - apply (f_equal String.length) in Heq.
    rewrite !append_length in Heq. cbn in Heq. lia.
  - change (String c (s1 +:+ t) = String d (s2 +:+ t)) in Heq.
    injection Heq as -> Heq. f_equal. auto.
Qed.

Lemma append_assoc s t u : (s +:+ t) +:+ u = s +:+ t +:+ u.
Proof.
  induction s as [|c s IH]; [reflexivity|].
  change (String c ((s +:+ t) +:+ u) = String c (s +:+ t +:+ u)).
  rewrite IH. reflexivity.
Qed.

Lemma isFileName_spec f :
  isFileName f = true ->
  f <> "" /\ hasSeparator f = false /\ f <> "." /\ f <> "..".
Proof.
  unfold isFileName. intros [[[Hn Hs]%andb_prop Hd]%andb_prop Hdd]%andb_prop.
  apply negb_true_iff in Hn, Hs, Hd, Hdd.
  repeat split; try exact Hs; intros ->; discriminate.
Qed.

Lemma trimSeparators_no_separator f :
  hasSeparator f = false -> trimSeparators f = f.
Proof.
  induction f as [|c f IH]; simpl; [reflexivity|].
  intros [Hc Hf]%orb_false_elim. rewrite (IH Hf), Hc.
  destruct f; reflexivity.
Qed.

Lemma trimSeparators_append s f :
  f <> "" -> trimSeparators f = f -> trimSeparators (s +:+ f) = s +:+ f.
Proof.
  intros Hne Hf. induction s as [|c s IH]; [exact Hf|].
  change (String c s +:+ f) with (String c (s +:+ f)).
  cbn [trimSeparators]. rewrite IH.
  pose proof (append_nonempty s f Hne) as Hn.
  destruct (s +:+ f); [contradiction|reflexivity].
Qed.

Lemma hasSeparator_append s t :
  hasSeparator (s +:+ t) = hasSeparator s || hasSeparator t.
Proof.
  induction s as [|c s IH]; simpl; [reflexivity|].
  rewrite IH. apply orb_assoc.
Qed.

Lemma lastElement_after_separator x f :
  hasSeparator f = false -> lastElement (x +:+ "/" +:+ f) = f.
Proof.
  intros Hf. induction x as [|c x IH].
  - change (lastElement (String "/" f) = f).
    cbn [lastElement]. rewrite Hf. reflexivity.
  - change (lastElement (String c (x +:+ "/" +:+ f)) = f).
    cbn [lastElement]. rewrite hasSeparator_append.
    change (hasSeparator ("/" +:+ f)) with true.
    rewrite orb_true_r. exact IH.
Qed.

(** The last element of a name that follows a separator is the name. *)
Lemma Base_after_separator x f :
  f <> "" -> hasSeparator f = false -> Base (x +:+ "/" +:+ f) = f.
Proof.
  intros Hne Hs. unfold Base.
  assert (Hj : x +:+ "/" +:+ f <> "").
  { apply append_nonempty. discriminate. }
  destruct (String.eqb_spec (x +:+ "/" +:+ f) ""); [contradiction|].
  assert (Ht : trimSeparators (x +:+ "/" +:+ f) = x +:+ "/" +:+ f).
  { apply trimSeparators_append; [discriminate|].
    change ("/" +:+ f) with (String "/" f).
    cbn [trimSeparators]. rewrite (trimSeparators_no_separator f Hs).
    destruct f; [contradiction|reflexivity]. }
  rewrite Ht, (lastElement_after_separator x f Hs).
  destruct (String.eqb_spec f ""); [contradiction|reflexivity].
Qed.

Lemma Base_name f : f <> "" -> hasSeparator f = false -> Base f = f.
Proof.
  intros Hne Hs. unfold Base.
  destruct (String.eqb_spec f ""); [contradiction|].
  rewrite (trimSeparators_no_separator f Hs).
  assert (Hl : lastElement f = f).
  { destruct f as [|c f]; [reflexivity|]. cbn [lastElement].
    simpl in Hs. apply orb_false_elim in Hs as [Hc Hf].
    rewrite Hf, Hc. reflexivity. }
  rewrite Hl. destruct (String.eqb_spec f ""); [contradiction|reflexivity].
Qed.

(** *** Splitting and cleaning *)

Lemma elements_nonempty s : elements s <> [].
Proof.
  destruct s as [|c s]; simpl; [discriminate|].
  destruct (isSeparator c); [discriminate|].
  destruct (elements s); discriminate.
Qed.

Lemma elements_app a b :
  elements (a +:+ "/" +:+ b) = elements a ++ elements b.
Proof.
  induction a as [|c a IH]; [reflexivity|].
  change (elements (String c (a +:+ "/" +:+ b))
          = elements (String c a) ++ elements b).
  cbn [elements]. rewrite IH.
  destruct (isSeparator c); [reflexivity|].
  pose proof (elements_nonempty a) as Hn.
  destruct (elements a); [contradiction|reflexivity].
Qed.

Lemma elements_name f : hasSeparator f = false -> elements f = [f].
Proof.
  induction f as [|c f IH]; [reflexivity|].
  simpl. intros [Hc Hf]%orb_false_elim. rewrite Hc, (IH Hf). reflexivity.
Qed.

(** No element has a separator in it. *)
Lemma elements_no_separator s :
  Forall (fun e => hasSeparator e = false) (elements s).
Proof.
  induction s as [|c s IH]; simpl; [repeat constructor|].
  destruct (isSeparator c) eqn:Hc; [constructor; [reflexivity|exact IH]|].
  destruct (elements s) as [|e es]; [repeat constructor; simpl; rewrite Hc; reflexivity|].
  inversion IH as [|? ? He Hes]; subst. constructor; [|exact Hes].
  simpl. rewrite Hc, He. reflexivity.
Qed.

Lemma cleanStep_kept rooted st e :
  hasSeparator e = false ->
  Forall kept (repeat ".." (fst st) ++ rev (snd st)) ->
  Forall kept (repeat ".." (fst (cleanStep rooted st e))
               ++ rev (snd (cleanStep rooted st e))).
Proof.
  destruct st as [dd stack]. unfold cleanStep. intros He Hst.
  destruct (String.eqb_spec e "") as [->|Hne]; [exact Hst|].
  destruct (String.eqb_spec e ".") as [->|Hnd]; [exact Hst|].
  cbn [orb].
  destruct (String.eqb_spec e "..") as [->|Hndd].
  - destruct stack as [|x stack].
    + destruct rooted; [exact Hst|]. simpl in *.
      rewrite app_nil_r in *. constructor; [|exact Hst].
      repeat split; discriminate.
    + simpl in *. rewrite app_assoc in Hst.
      apply Forall_app in Hst as [Hst _]. exact Hst.
  - simpl in *. rewrite app_assoc. apply Forall_app. split; [exact Hst|].
    repeat constructor; assumption.
Qed.

Lemma fold_cleanStep_kept rooted es : forall st,
  Forall (fun e => hasSeparator e = false) es ->
  Forall kept (repeat ".." (fst st) ++ rev (snd st)) ->
  let st' := fold_left (cleanStep rooted) es st in
  Forall kept (repeat ".." (fst st') ++ rev (snd st')).
Proof.
  induction es as [|e es IH]; intros st Hes Hst; [exact Hst|].
  inversion Hes as [|? ? He Hes']; subst. simpl.
  apply IH; [exact Hes'|]. apply cleanStep_kept; assumption.
Qed.

Lemma cleanElements_kept path : Forall kept (snd (cleanElements path)).
Proof.
  unfold cleanElements.
  pose proof (fold_cleanStep_kept
                match path with String c _ => isSeparator c | _ => false end
                (elements path) (0, []) (elements_no_separator path)) as Hk.
  simpl in Hk. specialize (Hk ltac:(constructor)).
  destruct (fold_left _ (elements path) (0, [])) as [dd stack]. exact Hk.
Qed.

Lemma joinSep_snoc out f : joinSep (out ++ [f]) = slashed out +:+ f.
Proof.
  induction out as [|e out IH]; [reflexivity|].
  change ((e :: out) ++ [f]) with (e :: (out ++ [f])).
  cbn [joinSep slashed]. rewrite IH, !append_assoc.
  destruct (out ++ [f]) eqn:Ho; [destruct out; discriminate|reflexivity].
Qed.

Lemma slashed_joinSep out : out <> [] -> slashed out = joinSep out +:+ "/".
Proof.
  induction out as [|e out IH]; [contradiction|]. intros _.
  cbn [joinSep slashed].
  destruct out as [|e' out']; [reflexivity|].
  rewrite IH by discriminate. rewrite !append_assoc. reflexivity.
Qed.

(** Cleaning a path with a file name joined to it keeps what it keeps
    of the path, and the name. *)
Lemma cleanElements_join d f :
  d <> "" -> isFileName f = true ->
  cleanElements (d +:+ "/" +:+ f)
  = (fst (cleanElements d), snd (cleanElements d) ++ [f]).
Proof.
  intros Hd (Hne & Hs & Hnd & Hndd)%isFileName_spec.
  destruct d as [|c d]; [contradiction|].
  unfold cleanElements.
  change (String c d +:+ "/" +:+ f) with (String c (d +:+ "/" +:+ f)).
  change (elements (String c (d +:+ "/" +:+ f)))
    with (elements (String c d +:+ "/" +:+ f)).
  rewrite elements_app, (elements_name f Hs), fold_left_app.
  destruct (fold_left (cleanStep (isSeparator c)) (elements (String c d)) (0, []))
    as [dd stack].
  cbn [fold_left]. unfold cleanStep.
  destruct (String.eqb_spec f ""); [contradiction|].
  destruct (String.eqb_spec f "."); [contradiction|].
  destruct (String.eqb_spec f ".."); [contradiction|].
  cbn [orb fst snd rev]. rewrite app_assoc. reflexivity.
Qed.

Lemma cleanElements_name f :
  isFileName f = true -> cleanElements f = (false, [f]).
Proof.
  intros (Hne & Hs & Hnd & Hndd)%isFileName_spec.
  unfold cleanElements. rewrite (elements_name f Hs).
  destruct f as [|c f]; [contradiction|].
  simpl in Hs. apply orb_false_elim in Hs as [Hc _]. rewrite Hc.
  cbn [fold_left]. unfold cleanStep.
  destruct (String.eqb_spec (String c f) ""); [contradiction|].
  destruct (String.eqb_spec (String c f) "."); [contradiction|].
  destruct (String.eqb_spec (String c f) ".."); [contradiction|].
  reflexivity.
Qed.

(** A directory joined with a file name: what cleaning keeps of the
    directory, in front of the name. *)
Lemma Join_cleanPrefix d f :
  isFileName f = true -> Join [d; f] = cleanPrefix d +:+ f.
Proof.
  intros Hf. pose proof Hf as (Hne & Hs & Hnd & Hndd)%isFileName_spec.
  cbn [Join]. destruct (String.eqb_spec d "") as [->|Hd].
  - destruct (String.eqb_spec f ""); [contradiction|].
    cbn [joinSep]. unfold Clean.
    destruct (String.eqb_spec f ""); [contradiction|].
    rewrite (cleanElements_name f Hf). reflexivity.
  - cbn [joinSep]. unfold Clean, cleanPrefix.
    assert (Hj : d +:+ "/" +:+ f <> "").
    { apply append_nonempty. discriminate. }
    destruct (String.eqb_spec (d +:+ "/" +:+ f) ""); [contradiction|].
    rewrite (cleanElements_join d f Hd Hf).
    destruct (cleanElements d) as [rooted out]. cbn [fst snd].
    rewrite joinSep_snoc.
    destruct rooted.
    + rewrite append_assoc. reflexivity.
    + destruct (out ++ [f]) eqn:Ho; [destruct out; discriminate|].
      reflexivity.
Qed.

Lemma joinSep_kept e out :
  kept e ->
  joinSep (e :: out) <> "" /\ joinSep (e :: out) <> "."
  /\ joinSep (e :: out) <> "/".
Proof.
  intros (Hne & Hnd & Hs). destruct e as [|c e]; [contradiction|].
  simpl in Hs. apply orb_false_elim in Hs as [Hc _].
  cbn [joinSep]. destruct out as [|e' out'].
  - repeat split; try discriminate; try assumption.
    intros [= -> ->]. discriminate.
  - change (String c e +:+ "/" +:+ joinSep (e' :: out'))
      with (String c (e +:+ "/" +:+ joinSep (e' :: out'))).
    repeat split; try discriminate.
    + intros [= -> He]. destruct e; discriminate.
    + intros [= -> _]. discriminate.
Qed.

(** How the cleaned path and what it puts in front of a file name
    determine each other. *)
Lemma Clean_cleanPrefix path :
  (cleanPrefix path = "" /\ Clean path = ".") \/
  (cleanPrefix path = "/" /\ Clean path = "/") \/
  (cleanPrefix path = Clean path +:+ "/" /\
   Clean path <> "" /\ Clean path <> "." /\ Clean path <> "/").
Proof.
  destruct path as [|c path]; [left; split; reflexivity|].
  unfold Clean, cleanPrefix.
  destruct (String.eqb_spec (String c path) ""); [discriminate|].
  pose proof (cleanElements_kept (String c path)) as Hk.
  destruct (cleanElements (String c path)) as [rooted out]. cbn [snd] in Hk.
  destruct rooted, out as [|e out].
  - right. left. split; reflexivity.
  - right. right. inversion Hk as [|? ? He _]; subst.
    destruct (joinSep_kept e out He) as (H0 & H1 & H2).
    rewrite slashed_joinSep by discriminate.
    rewrite append_assoc. split; [reflexivity|].
    change ("/" +:+ joinSep (e :: out)) with (String "/" (joinSep (e :: out))).
    repeat split; try discriminate.
    intros [= Hj]. contradiction.
  - left. split; reflexivity.
  - right. right. inversion Hk as [|? ? He _]; subst.
    destruct (joinSep_kept e out He) as (H0 & H1 & H2).
    rewrite slashed_joinSep by discriminate.
    split; [reflexivity|]. repeat split; assumption.
Qed.

Lemma append_separator_not_empty x : x +:+ "/" <> "".
Proof. destruct x; discriminate. Qed.

Lemma append_separator_alone x : x +:+ "/" = "/" -> x = "".
Proof.
  destruct x as [|a x]; [reflexivity|].
  change (String a (x +:+ "/") = "/" -> String a x = "").
  intros [= _ Hx]. destruct x; discriminate.
Qed.

Lemma cleanPrefix_eq_iff d1 d2 :
  cleanPrefix d1 = cleanPrefix d2 <-> Clean d1 = Clean d2.
Proof.
  split.
  - destruct (Clean_cleanPrefix d1)
      as [[P1 C1]|[[P1 C1]|(P1 & N1 & D1 & R1)]],
         (Clean_cleanPrefix d2)
      as [[P2 C2]|[[P2 C2]|(P2 & N2 & D2 & R2)]];
      rewrite P1, P2; intros Heq; rewrite ?C1, ?C2;
      try reflexivity; try discriminate Heq;
      first
        [ solve [apply append_inv_tail in Heq; exact Heq]
        | solve [apply append_separator_not_empty in Heq; contradiction]
        | solve [symmetry in Heq;
                 apply append_separator_not_empty in Heq; contradiction]
        | solve [apply append_separator_alone in Heq; contradiction]
        | solve [symmetry in Heq;
                 apply append_separator_alone in Heq; contradiction] ].
  - destruct (Clean_cleanPrefix d1)
      as [[P1 C1]|[[P1 C1]|(P1 & N1 & D1 & R1)]],
         (Clean_cleanPrefix d2)
      as [[P2 C2]|[[P2 C2]|(P2 & N2 & D2 & R2)]];
      rewrite P1, P2; intros Heq; rewrite ?C1, ?C2 in Heq;
      try reflexivity; try discriminate Heq;
      first
        [ solve [rewrite Heq; reflexivity]
        | solve [symmetry in Heq; contradiction]
        | solve [contradiction] ].
Qed.

(** Two directories joined with the same file name give the same path
    exactly when they are the same directory once cleaned. *)
Lemma Join_eq_iff d1 d2 f :
  isFileName f = true ->
  Join [d1; f] = Join [d2; f] <-> Clean d1 = Clean d2.
Proof.
  intros Hf. rewrite !(Join_cleanPrefix _ f Hf), <- cleanPrefix_eq_iff.
  split; [apply append_inv_tail|intros ->; reflexivity].
Qed.

(** The last element of a directory joined with a file name is the file
    name. *)
Lemma Base_Join dir f : isFileName f = true -> Base (Join [dir; f]) = f.
Proof.
  intros Hf. rewrite (Join_cleanPrefix dir f Hf).
  apply isFileName_spec in Hf as (Hne & Hs & _).
  destruct (Clean_cleanPrefix dir) as [[P _]|[[P _]|(P & _)]]; rewrite P.
  - apply Base_name; assumption.
  - apply (Base_after_separator "" f); assumption.
  - rewrite append_assoc. apply Base_after_separator; assumption.
Qed.

Section Profiles.
Context `{Layout}.


End Profiles.

(** Creating directories never turns a directory into something else. *)
Lemma mkdirs_keeps paths : forall w w' q,
  mkdirs paths w = Ok w' ->
  disk w !! q = Some Directory -> disk w' !! q = Some Directory.
Proof.
  induction paths as [|p paths IH]; simpl; intros w w' q.
  - intros [= <-]. auto.
  - destruct (disk w !! p) as [[]|] eqn:Hp; [eauto|discriminate|].
    destruct (readOnly w); [discriminate|].
    intros Hm Hq. eapply IH; [exact Hm|]. simpl.
    destruct (decide (p = q)) as [->|Hne].
    + apply lookup_insert_eq.
    + rewrite lookup_insert_ne; auto.
Qed.

(** When it succeeds, every path of the list is a directory afterwards. *)
Lemma mkdirs_creates paths : forall w w' q,
  mkdirs paths w = Ok w' -> In q paths -> disk w' !! q = Some Directory.
Proof.
  induction paths as [|p paths IH]; simpl; intros w w' q Hm Hin;
    [contradiction|destruct Hin as [->|Hin]].
  - destruct (disk w !! q) as [[]|] eqn:Hq.
    + eapply mkdirs_keeps; eauto.
    + discriminate.
    + destruct (readOnly w); [discriminate|].
      eapply mkdirs_keeps; [exact Hm|]. simpl. apply lookup_insert_eq.
  - destruct (disk w !! p) as [[]|]; [eauto|discriminate|].
    destruct (readOnly w); [discriminate|eauto].
Qed.

Lemma MkdirAll_creates path w w' :
  MkdirAll path w = Ok w' -> dirExists w' path = true.
Proof.
  intros Hm. unfold dirExists, Stat.
  erewrite mkdirs_creates; [reflexivity|exact Hm|].
  apply in_or_app. right. left. reflexivity.
Qed.

(** C9.  For a profile whose kubeconfig directory is not on disk, a
    successful [Cluster] returns a handle that is not nil and leaves the
    directory on disk. *)
Theorem Provider_Cluster_creates_directory p w :
  dirExists w (Dir (Kubeconfig p)) = false ->
  snd (fst (Cluster p w)) = None ->
  (exists handle, fst (fst (Cluster p w)) = Some handle) /\
  dirExists (snd (Cluster p w)) (Dir (Kubeconfig p)) = true.
Proof.
  intros _. unfold Cluster.
  destruct (MkdirAll (Dir (Kubeconfig p)) w) as [w1|e] eqn:Hm; simpl;
    [|discriminate].
  apply MkdirAll_creates in Hm.
  destruct (decide (ClusterName p ∈ clusters w1)); simpl; [eauto|].
  destruct (runtimeUp w1); simpl; [|discriminate].
  intros _. split; [eauto|exact Hm].
Qed.

End ProviderFacts.

(** ** The statements, run on the test doubles *)

Import fixtures.

(** A machine with a daemon on the docker-cli socket only: the standard
    socket fails, the docker-cli socket answers, and the address listed
    after it is never dialed. *)
Lemma connectLoop_first_live_witness :
  let pre := ["unix:///var/run/docker.sock"] in
  let h := "unix:///home/airbyte/.docker/desktop/docker-cli.sock" in
  let post := ["tcp://127.0.0.1:2375"] in
  let run := docker.connectLoop newPing (pre ++ h :: post) cliSocket in
  (exists errs w1, docker.failures newPing pre cliSocket = Some (errs, w1) /\
     exists w2 t,
       docker.createAndPing newPing h docker.dockerOpts w1 = (Ok h, w2, t)) /\
  value run = Ok {| docker.Client := h |} /\
  dialed (trace run) = pre ++ [h].
Proof.
  intros pre h post run.
  pose proof (@connectLoop_first_live machine machineRuntime newPing
                pre h post cliSocket _ _ _ _ _ eq_refl eq_refl) as Hrun.
  split.
  - eexists _, _. split; [reflexivity|]. eexists _, _. reflexivity.
  - destruct Hrun as (Hv & _ & _ & Hd & _). split; [exact Hv|exact Hd].
Defined.

(** A machine without docker: both Linux candidates fail, and the error
    is the one built from [ErrDocker]. *)
Lemma newWithOptions_exhausted_witness :
  let run := docker.newWithOptions newPing "linux" bare in
  (exists hosts w0 t0 errs w1,
     docker.potentialHosts "linux" bare = (hosts, w0, t0) /\
     docker.failures newPing hosts w0 = Some (errs, w1)) /\
  value run = Err docker.errUnableToCreate /\
  Error docker.errUnableToCreate
  = "error communicating with docker: unable to create docker client".
Proof.
  intros run.
  pose proof (@newWithOptions_exhausted machine machineRuntime newPing
                "linux" bare _ _ _ _ _ eq_refl eq_refl) as Hrun.
  split.
  - eexists _, _, _, _, _. split; reflexivity.
  - destruct Hrun as (Hv & He & _). split; [exact Hv|exact He].
Defined.

(** C4 as the claim has it fails on that machine: the error returned does
    not wrap the failure of the last candidate, neither the error
    [createAndPing] reported for it nor the ping error underneath. *)
Lemma newWithOptions_exhausted_drops_last_failure :
  let run := docker.newWithOptions newPing "linux" bare in
  let cause :=
    errorString "dial unix:///home/airbyte/.docker/desktop/docker-cli.sock: connection refused" in
  let lastFailure := Errorf_w "unable to ping docker client: " cause "" in
  let candidates := docker.potentialHosts "linux" bare in
  value run = Err docker.errUnableToCreate /\
  option_map (fun r => last (fst r))
    (docker.failures newPing (value candidates) (final candidates))
  = Some (Some lastFailure) /\
  Is docker.errUnableToCreate lastFailure = false /\
  Is docker.errUnableToCreate cause = false /\
  Unwrap docker.errUnableToCreate
  = Some (errorString "error communicating with docker").
Proof.
  cbv zeta. split; [|split; [|split; [|split]]]; reflexivity.
Qed.

(** On a Linux machine whose CLI reports the desktop socket, that socket
    comes first, then the two Linux fallbacks. *)
Lemma potentialHosts_order_witness :
  "linux" <> "darwin" /\ "linux" <> "windows" /\
  value (docker.potentialHosts "linux" desktop)
  = ["unix:///home/airbyte/.docker/desktop/docker.sock";
     "unix:///var/run/docker.sock";
     "unix:///home/airbyte/.docker/desktop/docker-cli.sock"].
Proof.
  assert (H1 : "linux" <> "darwin") by discriminate.
  assert (H2 : "linux" <> "windows") by discriminate.
  destruct (@potentialHosts_order machine machineRuntime "linux" desktop)
    as (Hv & _ & _ & Hf & _).
  split; [exact H1|split; [exact H2|]].
  rewrite Hv, (Hf H1 H2). reflexivity.
Defined.

Lemma Run_absent_cluster_witness :
  let run := local.Run {| local.Persisted := false |} k8s.DefaultProvider
               absent in
  existsb (isExistsAnswer false) (trace run) = true /\
  value run = None /\
  existsb isNewManager (trace run) = false /\
  existsb isDelete (trace run) = false.
Proof.
  intros run.
  assert (Hx : existsb (isExistsAnswer false) (trace run) = true)
    by reflexivity.
  destruct (@Run_absent_cluster script scripted _ _ _ Hx)
    as (Hv & _ & Hm & _ & Hd).
  split; [exact Hx|split; [exact Hv|split; [exact Hm|exact Hd]]].
Defined.



Lemma Run_span_then_verification_witness :
  let run := local.Run {| local.Persisted := true |} k8s.DefaultProvider
               noDocker in
  fst (local.dockerInstalled noDocker) = Err docker.errUnableToCreate /\
  value run
  = Some (Errorf_w "unable to determine docker installation status: "
            docker.errUnableToCreate "") /\
  existsb isCluster (trace run) = false.
Proof.
  intros run.
  assert (Hd : fst (local.dockerInstalled noDocker)
               = Err docker.errUnableToCreate) by reflexivity.
  destruct (@Run_span_then_verification script scripted
              {| local.Persisted := true |} k8s.DefaultProvider noDocker)
    as (_ & Hfail & _ & _).
  destruct (Hfail _ Hd) as (Hv & _ & Ht).
  split; [exact Hd|split; [exact Hv|]].
  fold run in Ht. rewrite Ht. reflexivity.
Defined.

(** C6 as the claim has it fails on the healthy run: the span is opened,
    and given the persisted attribute, before the runtime is verified, not
    after. *)
Lemma Run_span_opened_before_verification :
  let run := local.Run {| local.Persisted := true |} k8s.DefaultProvider
               healthy in
  precedes isDockerInstalled isSpanNew (trace run) = false /\
  precedes isDockerInstalled isPersistedAttr (trace run) = false /\
  precedes isSpanNew isDockerInstalled (trace run) = true /\
  precedes isPersistedAttr isDockerInstalled (trace run) = true.
Proof. vm_compute. repeat split. Qed.

Lemma Scan_one_record_per_line_witness :
  airbyte.unmarshal "plaintext line" = None /\
  airbyte.classify "plaintext line"
  = {| airbyte.Level := ""; airbyte.Message := "plaintext line" |}.
Proof.
  assert (Hu : airbyte.unmarshal "plaintext line" = None) by reflexivity.
  destruct (LogScannerFacts.Scan_one_record_per_line
              (airbyte.NewReader airbyte.specLogs))
    as (_ & _ & Hraw & _).
  split; [exact Hu|exact (Hraw _ Hu)].
Defined.



Lemma Provider_Cluster_creates_directory_witness :
  k8s.dirExists freshDisk (k8s.Dir (k8s.Kubeconfig k8s.TestProvider)) = false /\
  snd (fst (k8s.Cluster k8s.TestProvider freshDisk)) = None /\
  k8s.dirExists (snd (k8s.Cluster k8s.TestProvider freshDisk)) "/tmp/abctl"
  = true.
Proof.
  assert (H0 : k8s.dirExists freshDisk
                 (k8s.Dir (k8s.Kubeconfig k8s.TestProvider)) = false)
    by (vm_compute; reflexivity).
  assert (H1 : snd (fst (k8s.Cluster k8s.TestProvider freshDisk)) = None)
    by (vm_compute; reflexivity).
  destruct (ProviderFacts.Provider_Cluster_creates_directory
              k8s.TestProvider freshDisk H0 H1) as (_ & Hdir).
  split; [exact H0|split; [exact H1|exact Hdir]].
Defined.

(** ** More on the runtime connector *)

Lemma append_nil_r s : s +:+ "" = s.
Proof.
  induction s as [|c s IH]; [reflexivity|].
  change (String c s +:+ "") with (String c (s +:+ "")). rewrite IH.
  reflexivity.
Qed.

Lemma constructed_app t1 t2 :
  constructed (t1 ++ t2) = constructed t1 ++ constructed t2.
Proof.
  induction t1 as [|e t1 IH]; [reflexivity|].
  destruct e; simpl; rewrite ?IH; reflexivity.
Qed.

Lemma pinged_app t1 t2 : pinged (t1 ++ t2) = pinged t1 + pinged t2.
Proof.
  induction t1 as [|e t1 IH]; [reflexivity|].
  destruct e; simpl; rewrite ?IH; reflexivity.
Qed.

Section ConnectorMore.
Context {W : Type} `{docker.Runtime W}.
Import docker.

(** The candidate list is built with one run of the introspection
    command and nothing else. *)
Lemma potentialHosts_trace goos w :
  trace (potentialHosts goos w) = [ExecDockerContextInspect].
Proof.
  unfold potentialHosts, bind, call, ret, trace.
  destruct (dockerContextInspect w) as [r w']. reflexivity.
Qed.

(** What one attempt leaves in the trace. *)
Lemma createAndPing_events newPing host opts w :
  let r := createAndPing newPing host opts w in
  constructed (trace r) = [WithHost host :: opts] /\
  pinged (trace r) <= 1 /\
  (forall lvl, printed lvl (trace r) = []).
Proof.
  unfold createAndPing, bind, call, ret, trace, value.
  destruct (newPing _ w) as [[cli|err] w1]; simpl; [|auto].
  destruct (Ping cli w1) as [[err|] w2]; simpl; auto.
Qed.

(** X2.  When an attempt fails, the error it returns wraps the cause:
    either the error of the constructor, under the text "unable to create
    docker client: ", and then no ping was sent, or the error of the ping
    of the client the constructor built, under the text "unable to ping
    docker client: ". *)
Theorem createAndPing_error_wraps newPing host opts w e :
  value (createAndPing newPing host opts w) = Err e ->
  exists cause,
    Unwrap e = Some cause /\
    Is e cause = true /\
    ((fst (newPing (WithHost host :: opts) w) = Err cause /\
      Error e = "unable to create docker client: " +:+ Error cause /\
      pinged (trace (createAndPing newPing host opts w)) = 0) \/
     (exists cli w1,
        newPing (WithHost host :: opts) w = (Ok cli, w1) /\
        fst (Ping cli w1) = Some cause /\
        Error e = "unable to ping docker client: " +:+ Error cause)).
Proof.
  intros He. pose proof He as He'.
  apply createAndPing_Err in He' as [(err & Hn & ->)|(cli & w1 & err & Hn & Hp & ->)];
    exists err; (split; [reflexivity|split; [apply Is_wraps|]]).
  - left. split; [exact Hn|split].
    + simpl. rewrite append_nil_r. reflexivity.
    + unfold createAndPing, bind, call, ret, trace.
      destruct (newPing _ w) as [[cli|err'] w1]; simpl in *;
        [discriminate|reflexivity].
  - right. exists cli, w1. split; [exact Hn|split; [exact Hp|]].
    simpl. rewrite append_nil_r. reflexivity.
Qed.

(** One turn of the loop. *)
Lemma connectLoop_cons newPing h hosts w :
  connectLoop newPing (h :: hosts) w =
  let '(r, w1, t) := createAndPing newPing h dockerOpts w in
  match r with
  | Ok cli => (Ok {| Client := cli |}, w1, t)
  | Err e =>
      let '(r2, w2, t2) := connectLoop newPing hosts w1 in
      (r2, w2, t ++ Pterm Debug (connectDebugMsg h e) :: t2)
  end.
Proof.
  cbn [connectLoop]. unfold bind, emit, ret.
  destruct (createAndPing newPing h dockerOpts w) as [[[cli|e] w1] t].
  - rewrite app_nil_r. reflexivity.
  - destruct (connectLoop newPing hosts w1) as [[r2 w2] t2]. reflexivity.
Qed.

(** The loop, by cases: either every candidate failed and the error of
    line 151 comes back, or the list splits around the first candidate
    that answered. *)
Lemma connectLoop_cases newPing hosts : forall w,
  (exists errs w1,
     failures newPing hosts w = Some (errs, w1) /\
     value (connectLoop newPing hosts w) = Err errUnableToCreate /\
     final (connectLoop newPing hosts w) = w1) \/
  (exists pre h post errs w1 cli w2 t,
     hosts = pre ++ h :: post /\
     failures newPing pre w = Some (errs, w1) /\
     createAndPing newPing h dockerOpts w1 = (Ok cli, w2, t) /\
     value (connectLoop newPing hosts w) = Ok {| Client := cli |} /\
     final (connectLoop newPing hosts w) = w2).
Proof.
  induction hosts as [|h hosts IH]; intros w.
  - left. exists [], w. auto.
  - rewrite connectLoop_cons. cbn [failures].
    destruct (createAndPing newPing h dockerOpts w) as [[[cli|e] w'] t] eqn:Hc.
    + right. exists [], h, hosts, [], w, cli, w', t. auto.
    + destruct (IH w') as [(errs & w1 & Hf & Hv & Hw)
                          |(pre & h' & post & errs & w1 & cli & w2 & t' &
                            -> & Hf & Hc' & Hv & Hw)].
      * left. exists (e :: errs), w1. rewrite Hf.
        destruct (connectLoop newPing hosts w') as [[r wf] tf].
        unfold value, final in *. simpl in *. auto.
      * right. exists (h :: pre), h', post, (e :: errs), w1, cli, w2, t'.
        cbn [failures]. rewrite Hc, Hf.
        destruct (connectLoop newPing (pre ++ h' :: post) w') as [[r wf] tf].
        unfold value, final in *. simpl in *. auto.
Qed.

(** X3.  A connector that is returned is a live one: the candidate list
    splits into candidates that failed, in order, and a candidate for which
    the constructor built the returned client and whose ping, sent right
    after, was answered; nothing was dialed after it. *)
Theorem newWithOptions_Ok_sound newPing goos w d :
  value (newWithOptions newPing goos w) = Ok d ->
  let hosts := value (potentialHosts goos w) in
  let w0 := final (potentialHosts goos w) in
  exists pre h post errs w1 w2,
    hosts = pre ++ h :: post /\
    failures newPing pre w0 = Some (errs, w1) /\
    newPing (WithHost h :: dockerOpts) w1 = (Ok (Client d), w2) /\
    Ping (Client d) w2 = (None, final (newWithOptions newPing goos w)) /\
    dialed (trace (newWithOptions newPing goos w)) = pre ++ [h].
Proof.
  intros Hv hosts w0. subst hosts w0.
  pose proof (potentialHosts_trace goos w) as Ht0.
  revert Hv. unfold newWithOptions, bind.
  destruct (potentialHosts goos w) as [[hosts w0] t0].
  unfold value, final, trace in *. simpl in *. subst t0.
  destruct (connectLoop_cases newPing hosts w0)
    as [(errs & w1 & _ & Hv & _)
       |(pre & h & post & errs & w1 & cli & w2 & t & -> & Hf & Hc & Hv & Hw)].
  - destruct (connectLoop newPing hosts w0) as [[r wf] tf].
    unfold value in Hv. simpl in *. subst r. discriminate.
  - destruct (connectLoop_skip newPing pre (h :: post) w0 errs w1 Hf)
      as (tp & Heq & Hd & _).
    pose proof (createAndPing_trace newPing h w1) as [Hd1 _].
    rewrite Heq in *. clear Heq.
    cbn [connectLoop] in *. unfold bind in *. rewrite Hc in *.
    unfold ret, value, final, trace in *. simpl in *.
    intros [= <-]. exists pre, h, post, errs, w1.
    revert Hc. unfold createAndPing, bind, call, ret.
    destruct (newPing _ w1) as [[c|e] w'] eqn:Hn; simpl; [|discriminate].
    destruct (Ping c w') as [[e|] w3] eqn:Hp; simpl; [discriminate|].
    intros [= <- <- <-]. exists w'. simpl in *.
    repeat split; auto.
    rewrite dialed_app, Hd. reflexivity.
Qed.

(** X4.  The only error the connector returns is the one built from
    [ErrDocker], and it returns it only after every candidate of the list
    was dialed, in order, and failed. *)
Theorem newWithOptions_Err_complete newPing goos w e :
  value (newWithOptions newPing goos w) = Err e ->
  let hosts := value (potentialHosts goos w) in
  let w0 := final (potentialHosts goos w) in
  e = errUnableToCreate /\
  Is e ErrDocker = true /\
  exists errs,
    failures newPing hosts w0
      = Some (errs, final (newWithOptions newPing goos w)) /\
    length errs = length hosts /\
    dialed (trace (newWithOptions newPing goos w)) = hosts /\
    printed Debug (trace (newWithOptions newPing goos w))
      = debugLines hosts errs.
Proof.
  intros Hv hosts w0. subst hosts w0.
  pose proof (potentialHosts_trace goos w) as Ht0.
  revert Hv. unfold newWithOptions, bind.
  destruct (potentialHosts goos w) as [[hosts w0] t0].
  unfold value, final, trace in *. simpl in *. subst t0.
  destruct (connectLoop_cases newPing hosts w0)
    as [(errs & w1 & Hf & Hv & Hw)
       |(pre & h & post & errs & w1 & cli & w2 & t & _ & _ & _ & Hv & _)].
  - destruct (connectLoop_skip newPing hosts [] w0 errs w1 Hf)
      as (tp & Heq & Hd & Hp).
    rewrite app_nil_r in Heq. rewrite Heq in *.
    unfold value, final, trace, ret in *. simpl in *.
    intros [= <-]. split; [reflexivity|split; [apply Is_wraps|]].
    exists errs. rewrite app_nil_r, Hd, Hp.
    repeat split; auto. eapply failures_length; eauto.
  - destruct (connectLoop newPing hosts w0) as [[r wf] tf].
    unfold value in Hv. simpl in *. subst r. discriminate.
Qed.

(** What the loop hands to the constructor, and how often it pings. *)
Lemma connectLoop_constructed newPing hosts : forall w,
  constructed (trace (connectLoop newPing hosts w))
  = map (fun h => WithHost h :: dockerOpts)
      (dialed (trace (connectLoop newPing hosts w))) /\
  pinged (trace (connectLoop newPing hosts w))
  <= length (constructed (trace (connectLoop newPing hosts w))).
Proof.
  induction hosts as [|h hosts IH]; intros w.
  - split; [reflexivity|]. simpl. lia.
  - rewrite connectLoop_cons.
    pose proof (createAndPing_events newPing h dockerOpts w) as (Hc & Hp & _).
    pose proof (createAndPing_trace newPing h w) as [Hd _].
    destruct (createAndPing newPing h dockerOpts w) as [[[cli|e] w'] t].
    + unfold trace in *. simpl in *. rewrite Hc, Hd. simpl. split; [reflexivity|lia].
    + destruct (IH w') as (Hk & Hpk).
      destruct (connectLoop newPing hosts w') as [[r w2] t2].
      unfold trace in *. simpl in *.
      rewrite constructed_app, dialed_app, pinged_app, Hc, Hd. simpl.
      rewrite Hk in Hpk |- *. split; [reflexivity|]. lia.
Qed.

(** X1.  Every client the connector constructs is given the host first,
    then the environment, API version negotiation and the tracer that never
    samples, so that a DOCKER_HOST of the environment overrides the
    candidate; the hosts it does so for are the hosts it dials, an initial
    segment of the candidate list, and it never sends more pings than it
    has constructed clients. *)
Theorem newWithOptions_constructor_options newPing goos w :
  let run := newWithOptions newPing goos w in
  let hosts := value (potentialHosts goos w) in
  constructed (trace run)
  = map (fun h => [WithHost h; FromEnv; WithAPIVersionNegotiation;
                   WithTraceProvider_NeverSample])
      (dialed (trace run)) /\
  (exists k, k <= length hosts /\ dialed (trace run) = take k hosts) /\
  length (constructed (trace run)) <= length hosts /\
  pinged (trace run) <= length (constructed (trace run)).
Proof.
  cbv zeta.
  pose proof (potentialHosts_trace goos w) as Ht0.
  unfold newWithOptions, bind.
  destruct (potentialHosts goos w) as [[hosts w0] t0].
  unfold trace, value in *. simpl in *. subst t0.
  destruct (connectLoop_constructed newPing hosts w0) as (Hc & Hp).
  destruct (connectLoop_dialed_prefix newPing hosts w0) as (k & Hk).
  destruct (connectLoop newPing hosts w0) as [[r w2] t2].
  unfold trace in *. simpl in *.
  assert (Hlen : length (dialed t2) <= length hosts).
  { rewrite Hk, length_take. lia. }
  split; [exact Hc|split; [|split; [|exact Hp]]].
  - exists (length (dialed t2)). split; [exact Hlen|].
    rewrite Hk at 1. rewrite Hk, length_take.
    destruct (Nat.le_gt_cases k (length hosts)) as [Hle|Hgt].
    + rewrite Nat.min_l by exact Hle. reflexivity.
    + rewrite Nat.min_r by lia. rewrite !take_ge by lia. reflexivity.
  - rewrite Hc, length_map. exact Hlen.
Qed.

(** X5.  The candidate list has one entry for the current context, when it
    has a usable endpoint, and one fallback on windows, two anywhere else:
    it is never empty and never longer than three, and the connector
    always dials its first entry first. *)
Theorem potentialHosts_bounds newPing goos w :
  let hosts := value (potentialHosts goos w) in
  length hosts
    = match currentContextEndpoint w with Some _ => 1 | None => 0 end
      + (if String.eqb goos "windows" then 1 else 2) /\
  1 <= length hosts <= 3 /\
  head hosts <> None /\
  head (dialed (trace (newWithOptions newPing goos w))) = head hosts.
Proof.
  cbv zeta.
  assert (Hlen : length (value (potentialHosts goos w))
                 = match currentContextEndpoint w with Some _ => 1 | None => 0 end
                   + (if String.eqb goos "windows" then 1 else 2)).
  { unfold potentialHosts, currentContextEndpoint, fallbackHosts,
      bind, call, ret, value.
    destruct (dockerContextInspect w) as [[out|e] w1]; simpl;
      [destruct (unmarshalContexts out) as [[|d data]|e]; simpl;
       [| destruct (String.eqb (Endpoints_Docker_Host d) ""); simpl |] |];
      (destruct (String.eqb_spec goos "darwin") as [->|_];
       [reflexivity|destruct (String.eqb goos "windows"); reflexivity]). }
  split; [exact Hlen|].
  assert (Hb : 1 <= length (value (potentialHosts goos w)) <= 3).
  { rewrite Hlen. destruct (currentContextEndpoint w), (String.eqb goos "windows");
      simpl; lia. }
  split; [exact Hb|].
  pose proof (potentialHosts_trace goos w) as Ht0.
  unfold newWithOptions, bind.
  destruct (potentialHosts goos w) as [[hosts w0] t0].
  unfold trace, value in *. simpl in *. subst t0.
  destruct hosts as [|h hosts]; [simpl in Hb; lia|].
  split; [discriminate|].
  rewrite connectLoop_cons.
  pose proof (createAndPing_trace newPing h w0) as [Hd _].
  destruct (createAndPing newPing h dockerOpts w0) as [[[cli|e] w'] t].
  - unfold trace in *. simpl in *. rewrite Hd. reflexivity.
  - destruct (connectLoop newPing hosts w') as [[r w2] t2].
    unfold trace in *. simpl in *. rewrite dialed_app, Hd. reflexivity.
Qed.

(** The loop prints at debug level only, one line per failed attempt. *)
Lemma connectLoop_printed newPing hosts : forall w,
  let run := connectLoop newPing hosts w in
  printed Info (trace run) = [] /\
  printed Success (trace run) = [] /\
  printed Warning (trace run) = [] /\
  printed ErrorLvl (trace run) = [] /\
  length (printed Debug (trace run)) + (if isOk (value run) then 1 else 0)
  = length (dialed (trace run)).
Proof.
  induction hosts as [|h hosts IH]; intros w; cbv zeta.
  - simpl. auto.
  - rewrite connectLoop_cons.
    pose proof (createAndPing_events newPing h dockerOpts w) as (_ & _ & Hp).
    pose proof (createAndPing_trace newPing h w) as [Hd _].
    destruct (createAndPing newPing h dockerOpts w) as [[[cli|e] w'] t].
    + unfold trace, value in *. simpl in *.
      rewrite !Hp, Hd. auto.
    + specialize (IH w'). cbv zeta in IH.
      destruct (connectLoop newPing hosts w') as [[r w2] t2].
      unfold trace, value in *. simpl in *.
      destruct IH as (I1 & I2 & I3 & I4 & I5).
      rewrite !printed_app, !dialed_app, !Hp, Hd. simpl.
      rewrite I1, I2, I3, I4. repeat split; auto; simpl; lia.
Qed.

(** X6.  The connector is quiet: it prints nothing at the info, success,
    warning or error levels, and at debug level one line per dialed
    candidate that failed, the candidate that answered, if any, being the
    only one without a line. *)
Theorem newWithOptions_quiet newPing goos w :
  let run := newWithOptions newPing goos w in
  printed Info (trace run) = [] /\
  printed Success (trace run) = [] /\
  printed Warning (trace run) = [] /\
  printed ErrorLvl (trace run) = [] /\
  length (printed Debug (trace run)) + (if isOk (value run) then 1 else 0)
  = length (dialed (trace run)).
Proof.
  cbv zeta.
  pose proof (potentialHosts_trace goos w) as Ht0.
  unfold newWithOptions, bind.
  destruct (potentialHosts goos w) as [[hosts w0] t0].
  unfold trace in Ht0. simpl in Ht0. subst t0.
  pose proof (connectLoop_printed newPing hosts w0) as Hl. cbv zeta in Hl.
  destruct (connectLoop newPing hosts w0) as [[r w2] t2].
  unfold trace, value in *. simpl in *. exact Hl.
Qed.

End ConnectorMore.

(** ** [Version] *)

Section ApiFacts.
Context {W : Type} `{docker_api.Engine W}.
Import docker docker_api.

(** X8.  [Version] asks the server once.  When the server answers, the
    error is nil and the version, architecture and platform name of the
    answer are copied; when it fails, the version is the zero value and
    the error wraps the failure under the text "unable to determine server
    version: ". *)
Theorem Docker_Version_outcomes d w :
  let out := Docker_Version d w in
  snd out = snd (ServerVersion (Client d) w) /\
  match fst (ServerVersion (Client d) w) with
  | Ok ver =>
      snd (fst out) = None /\
      fst (fst out)
      = {| Version_ := Version ver; docker.Arch := Arch ver;
           Platform := Platform_Name ver |}
  | Err cause =>
      fst (fst out) = {| Version_ := ""; docker.Arch := ""; Platform := "" |} /\
      exists err,
        snd (fst out) = Some err /\
        Unwrap err = Some cause /\
        Is err cause = true /\
        Error err = "unable to determine server version: " +:+ Error cause
  end.
Proof.
  cbv zeta. unfold Docker_Version.
  destruct (ServerVersion (Client d) w) as [[ver|cause] w1]; simpl.
  - auto.
  - split; [reflexivity|split; [reflexivity|]].
    eexists. split; [reflexivity|split; [reflexivity|split]].
    + apply Is_wraps.
    + simpl. rewrite append_nil_r. reflexivity.
Qed.

End ApiFacts.

(** ** More on the uninstall sequence *)

Section UninstallMore.
Context {W : Type} `{local.Collaborators W}.
Import local.

Ltac next_call :=
  match goal with
  | |- context [dockerInstalled ?w] =>
      destruct (dockerInstalled w) as [[?|?] ?] eqn:?
  | |- context [provider_Cluster ?p ?w] =>
      destruct (provider_Cluster p w) as [[?|?] ?] eqn:?
  | |- context [cluster_Exists ?c ?w] =>
      destruct (cluster_Exists c w) as [[|] ?] eqn:?
  | |- context [service_NewManager ?p ?w] =>
      destruct (service_NewManager p w) as [[?|?] ?] eqn:?
  | |- context [svcMgr_Uninstall ?m ?o ?w] =>
      destruct (svcMgr_Uninstall m o w) as [[?|] ?] eqn:?
  | |- context [cluster_Delete ?c ?w] =>
      destruct (cluster_Delete c w) as [[?|] ?] eqn:?
  end; simpl.

Ltac all_runs :=
  cbv zeta;
  unfold Run, uninstall, telemetry.Wrap, bind, call, emit, ret,
    value, final, trace;
  simpl; repeat next_call.

(** X9.  [Run] returns an error exactly when it printed at the error
    level, and it prints there at most once: the three fatal steps, the
    verification of the runtime, the lookup of the cluster and its
    deletion, each announce their failure, and nothing else does. *)
Theorem Run_error_iff_error_printed u provider w :
  let run := Run u provider w in
  (value run = None <-> printed ErrorLvl (trace run) = []) /\
  length (printed ErrorLvl (trace run)) <= 1.
Proof.
  all_runs; (split; [split; intros Hx; first [reflexivity|discriminate Hx]
                    |lia]).
Qed.

(** X10.  When the lookup of the cluster fails, [Run] returns the error of
    the lookup as it is, not wrapped, after printing that the existence
    of the cluster could not be determined; the lookup is the last call:
    no existence check, no manager, no deletion. *)
Theorem Run_cluster_lookup_failure u provider w :
  let run := Run u provider w in
  existsb isClusterFailure (trace run) = true ->
  exists err,
    In (CallCluster (Some err)) (trace run) /\
    value run = Some err /\
    steps (trace run) = [StepDockerInstalled; StepCluster] /\
    printed ErrorLvl (trace run)
    = ["Unable to determine if the cluster '"
       +:+ k8s.ClusterName provider +:+ "' exists"].
Proof.
  all_runs; try discriminate; intros _.
  eexists. split; [|repeat split]. simpl. auto 10.
Qed.

(** X11.  The collaborators are called in one fixed order, each at most
    once, and a run stops after the verification, after the lookup, after
    the existence check, or after the deletion: the deletion never comes
    without the existence check and the construction of the manager
    before it, the uninstall of the manager never without its
    construction. *)
Theorem Run_call_order u provider w :
  let called := steps (trace (Run u provider w)) in
  called = [StepDockerInstalled] \/
  called = [StepDockerInstalled; StepCluster] \/
  called = [StepDockerInstalled; StepCluster; StepExists] \/
  called = [StepDockerInstalled; StepCluster; StepExists;
            StepNewManager; StepDelete] \/
  called = [StepDockerInstalled; StepCluster; StepExists;
            StepNewManager; StepUninstall; StepDelete].
Proof.
  all_runs; auto 6.
Qed.

(** X12.  The spinner is told of success exactly when the deletion of the
    cluster succeeded.  In particular the run that finds no cluster
    returns nil without telling the spinner. *)
Theorem Run_spinner_success u provider w :
  let run := Run u provider w in
  existsb isSpinnerSuccess (trace run) = existsb isDeleteSuccess (trace run) /\
  existsb isSpinnerSuccess (trace run)
  && existsb (isExistsAnswer false) (trace run) = false.
Proof.
  all_runs; split; reflexivity.
Qed.

(** X13.  Warnings are printed exactly when the construction of the
    manager or its uninstall failed; a run without such a failure prints
    none. *)
Theorem Run_warnings_iff_teardown_failure u provider w :
  let run := Run u provider w in
  printed Warning (trace run) = [] <->
  existsb isNewManagerFailure (trace run) = false /\
  existsb isUninstallFailure (trace run) = false.
Proof.
  all_runs; split; try (intros Hx; discriminate Hx);
    try (intros [Hx Hy]; first [discriminate Hx|discriminate Hy]); auto.
Qed.

(** X14.  The span is opened first and closed last, once each, on every
    path through [Run], whether it returns nil or an error. *)
Theorem Run_span_balanced u provider w :
  exists middle,
    trace (Run u provider w)
    = SpanNew "local uninstall" :: middle ++ [SpanEnd] /\
    existsb isSpanNew middle = false /\
    existsb isSpanEnd middle = false.
Proof.
  all_runs;
    match goal with
    | |- exists m, _ :: ?t = _ /\ _ =>
        let n := eval cbv in (length t - 1) in
        exists (take n t); repeat split
    end.
Qed.

End UninstallMore.

(** ** The further statements, run on the test doubles *)

Lemma createAndPing_error_wraps_witness :
  let host := "unix:///var/run/docker.sock" in
  let cause :=
    errorString "dial unix:///var/run/docker.sock: connection refused" in
  let e := Errorf_w "unable to ping docker client: " cause "" in
  value (docker.createAndPing newPing host docker.dockerOpts bare) = Err e /\
  Is e cause = true.
Proof.
  intros host cause e.
  assert (He : value (docker.createAndPing newPing host docker.dockerOpts bare)
               = Err e) by reflexivity.
  destruct (@createAndPing_error_wraps machine machineRuntime newPing host
              docker.dockerOpts bare e He) as (c & Hu & Hi & _).
  injection Hu as <-. split; [exact He|exact Hi].
Defined.

Lemma newWithOptions_Ok_sound_witness :
  let d := {| docker.Client :=
                "unix:///home/airbyte/.docker/desktop/docker-cli.sock" |} in
  let run := docker.newWithOptions newPing "linux" cliSocket in
  value run = Ok d /\
  exists pre h post,
    value (docker.potentialHosts "linux" cliSocket) = pre ++ h :: post /\
    dialed (trace run) = pre ++ [h].
Proof.
  intros d run.
  assert (Hv : value run = Ok d) by reflexivity.
  destruct (@newWithOptions_Ok_sound machine machineRuntime newPing
              "linux" cliSocket d Hv)
    as (pre & h & post & errs & w1 & w2 & Hh & _ & _ & _ & Hd).
  split; [exact Hv|]. exists pre, h, post. split; [exact Hh|exact Hd].
Defined.

Import fixtures_more.

Lemma newWithOptions_Err_complete_witness :
  let run := docker.newWithOptions newPing "windows" bare in
  value run = Err docker.errUnableToCreate /\
  dialed (trace run) = ["npipe:////./pipe/docker_engine"].
Proof.
  intros run.
  assert (Hv : value run = Err docker.errUnableToCreate) by reflexivity.
  destruct (@newWithOptions_Err_complete machine machineRuntime newPing
              "windows" bare _ Hv) as (_ & _ & errs & _ & _ & Hd & _).
  split; [exact Hv|exact Hd].
Defined.

Lemma Run_cluster_lookup_failure_witness :
  let run := local.Run {| local.Persisted := false |} k8s.DefaultProvider
               lookupFails in
  existsb isClusterFailure (trace run) = true /\
  exists err,
    value run = Some err /\
    steps (trace run) = [StepDockerInstalled; StepCluster].
Proof.
  intros run.
  assert (Hx : existsb isClusterFailure (trace run) = true) by reflexivity.
  destruct (@Run_cluster_lookup_failure script scripted _ _ _ Hx)
    as (err & _ & Hv & Hs & _).
  split; [exact Hx|]. exists err. split; [exact Hv|exact Hs].
Defined.
